(** * Graceful shutdown service: a shallow embedding of
      [advance/ctx/graceful_shutdown/service/shutdown.go]

    The Go package hosts several HTTP servers behind a request gate and
    shuts them down in phases when a signal arrives.  The embedding keeps
    the source's names.  Durations are [time.Duration] values, that is
    signed 64-bit nanosecond counts held in [Z]; nothing in the package
    comes near the 64-bit bound.  The clock is a logical one: an operation
    that blocks moves it forward by the amount the environment dictates,
    and starting a goroutine or taking a ready [select] case costs no
    time.  Goroutines interleave at the granularity of the statements of
    the source, and a write is seen by every later read.  The servers of
    an [App] are taken to be distinct objects, listed in the order of the
    slice. *)

From Stdlib Require Import ZArith List Ascii String Bool Lia.
Import ListNotations.
Local Open Scope Z_scope.

(** ** Package [time] *)

Module time.
Definition Duration := Z.
Definition Nanosecond : Duration := 1.
Definition Second : Duration := 1000000000 * Nanosecond.
End time.

(** ** Package-level constants (untyped in Go) *)

Definition shutdownTimeout : Z := 30.
Definition waitTime : Z := 10.
Definition cbTimeout : Z := 3.

(** ** [sync.WaitGroup]

    Only the counter matters here.  [Add] panics when the counter would
    become negative; [Wait] returns as soon as the counter is zero. *)

Module WaitGroup.
Definition t := Z.
Definition new : t := 0.

Definition Add (delta : Z) (c : t) : option t :=
  if c + delta <? 0 then None else Some (c + delta).

Definition Done (c : t) : option t := Add (-1) c.

Definition unblocked (c : t) : bool := c =? 0.
End WaitGroup.

(** ** The part of [net/http] the package relies on

    Routing is an external collaborator, so the multiplexer is an
    interface: registering a route may panic ([None]), and serving writes
    to the response writer. *)

Inductive WriterOp :=
| WriteHeader (status : Z)
| Write (body : string).

Definition ResponseWriter := list WriterOp.

Definition StatusServiceUnavailable : Z := 503.

Class NetHTTP := {
  Handler : Type;
  Request : Type;
  ServeMux : Type;
  NewServeMux : ServeMux;
  ServeMux_Handle : string -> Handler -> ServeMux -> option ServeMux;
  ServeMux_ServeHTTP : ServeMux -> ResponseWriter -> Request -> ResponseWriter
}.

Definition Error := string.

Section Service.
Context `{http : NetHTTP}.

(** ** [serverMux] and [Server] *)

Record serverMux := {
  reject : bool;
  embedded : ServeMux
}.

Record Server := {
  name : string;
  addr : string;          (* srv.Addr; srv.Handler is [mux] itself *)
  mux : serverMux;
  wg : WaitGroup.t
}.

Definition set_reject (b : bool) (m : serverMux) : serverMux :=
  {| reject := b; embedded := embedded m |}.

Definition set_embedded (e : ServeMux) (m : serverMux) : serverMux :=
  {| reject := reject m; embedded := e |}.

Definition set_mux (m : serverMux) (s : Server) : Server :=
  {| name := name s; addr := addr s; mux := m; wg := wg s |}.

Definition set_wg (c : WaitGroup.t) (s : Server) : Server :=
  {| name := name s; addr := addr s; mux := mux s; wg := c |}.

(** What one call of the gate does: it answers by itself, or it hands the
    very same writer and request to the embedded multiplexer. *)
Inductive Served :=
| Answered (w : ResponseWriter)
| Delegated (m : ServeMux) (w : ResponseWriter) (r : Request).

Definition closedBody : string := "服务已关闭".

Definition ServeHTTP (s : serverMux) (w : ResponseWriter) (r : Request) : Served :=
  if reject s then
    Answered (w ++ [WriteHeader StatusServiceUnavailable; Write closedBody])
  else
    Delegated (embedded s) w r.

Definition NewServer (name addr : string) : Server :=
  {| name := name;
     addr := addr;
     mux := {| reject := false; embedded := NewServeMux |};
     wg := WaitGroup.new |}.

(** A Go call either returns or panics; the receiver is a pointer, so the
    state it leaves behind is visible in both cases. *)
Inductive Outcome (A : Type) :=
| Returned (a : A)
| Panicked (a : A).
Arguments Returned {A} a.
Arguments Panicked {A} a.

Definition after {A} (o : Outcome A) : A :=
  match o with Returned a | Panicked a => a end.

(** [Handle]: [s.wg.Add(1); defer s.wg.Done(); s.mux.Handle(pattern, handler)].
    The deferred [Done] also runs when the registration panics. *)
Definition Handle (s : Server) (pattern : string) (handler : Handler) : Outcome Server :=
  match WaitGroup.Add 1 (wg s) with
  | None => Panicked s
  | Some c1 =>
      let s1 := set_wg c1 s in
      let reg := ServeMux_Handle pattern handler (embedded (mux s1)) in
      let s2 := match reg with
                | Some e => set_mux (set_embedded e (mux s1)) s1
                | None => s1
                end in
      match WaitGroup.Done (wg s2), reg with
      | Some c2, Some _ => Returned (set_wg c2 s2)
      | Some c2, None => Panicked (set_wg c2 s2)
      | None, _ => Panicked s2
      end
  end.

Definition rejectReq (s : Server) : Server :=
  set_mux (set_reject true (mux s)) s.

(** ** One server under concurrent use

    Requests arrive on goroutines of [net/http] while routes are being
    registered and while the coordinator flips the flag.  Each label is
    one atomic action of one goroutine: the three statements of [Handle],
    the gate check of [ServeHTTP], the end of a delegated request, and
    [rejectReq]. *)

Inductive HandlePc :=
| AfterAdd
| AfterMux (panicking : bool).

Record HandleCall := {
  hc_pattern : string;
  hc_handler : Handler;
  hc_pc : HandlePc
}.

Record World := {
  server : Server;
  calls : list HandleCall;
  inflight : list (ServeMux * ResponseWriter * Request);
  answered : list (Request * ResponseWriter)
}.

Inductive Label :=
| LHandleAdd (pattern : string) (handler : Handler)
| LHandleMux (k : nat)
| LHandleDone (k : nat)
| LServe (r : Request)
| LFinish (k : nat)
| LRejectReq.

Fixpoint remove_nth {A} (k : nat) (l : list A) : list A :=
  match l, k with
  | [], _ => []
  | _ :: t, O => t
  | x :: t, S k' => x :: remove_nth k' t
  end.

Fixpoint replace_nth {A} (k : nat) (y : A) (l : list A) : list A :=
  match l, k with
  | [], _ => []
  | _ :: t, O => y :: t
  | x :: t, S k' => x :: replace_nth k' y t
  end.

Definition step (l : Label) (w : World) : option World :=
  match l with
  | LHandleAdd p h =>
      match WaitGroup.Add 1 (wg (server w)) with
      | None => None
      | Some c =>
          Some {| server := set_wg c (server w);
                  calls := calls w ++ [{| hc_pattern := p; hc_handler := h; hc_pc := AfterAdd |}];
                  inflight := inflight w;
                  answered := answered w |}
      end
  | LHandleMux k =>
      match nth_error (calls w) k with
      | Some {| hc_pattern := p; hc_handler := h; hc_pc := AfterAdd |} =>
          let s := server w in
          match ServeMux_Handle p h (embedded (mux s)) with
          | Some e =>
              Some {| server := set_mux (set_embedded e (mux s)) s;
                      calls := replace_nth k {| hc_pattern := p; hc_handler := h;
                                                hc_pc := AfterMux false |} (calls w);
                      inflight := inflight w;
                      answered := answered w |}
          | None =>
              Some {| server := s;
                      calls := replace_nth k {| hc_pattern := p; hc_handler := h;
                                                hc_pc := AfterMux true |} (calls w);
                      inflight := inflight w;
                      answered := answered w |}
          end
      | _ => None
      end
  | LHandleDone k =>
      match nth_error (calls w) k with
      | Some {| hc_pc := AfterMux _ |} =>
          match WaitGroup.Done (wg (server w)) with
          | None => None
          | Some c =>
              Some {| server := set_wg c (server w);
                      calls := remove_nth k (calls w);
                      inflight := inflight w;
                      answered := answered w |}
          end
      | _ => None
      end
  | LServe r =>
      match ServeHTTP (mux (server w)) [] r with
      | Answered resp =>
          Some {| server := server w;
                  calls := calls w;
                  inflight := inflight w;
                  answered := answered w ++ [(r, resp)] |}
      | Delegated m wr r' =>
          Some {| server := server w;
                  calls := calls w;
                  inflight := inflight w ++ [(m, wr, r')];
                  answered := answered w |}
      end
  | LFinish k =>
      match nth_error (inflight w) k with
      | Some (m, wr, r) =>
          Some {| server := server w;
                  calls := calls w;
                  inflight := remove_nth k (inflight w);
                  answered := answered w ++ [(r, ServeMux_ServeHTTP m wr r)] |}
      | None => None
      end
  | LRejectReq =>
      Some {| server := rejectReq (server w);
              calls := calls w;
              inflight := inflight w;
              answered := answered w |}
  end.

Fixpoint exec (ls : list Label) (w : World) : option World :=
  match ls with
  | [] => Some w
  | l :: ls' =>
      match step l w with
      | Some w' => exec ls' w'
      | None => None
      end
  end.

Definition boot (name addr : string) : World :=
  {| server := NewServer name addr; calls := []; inflight := []; answered := [] |}.

(** ** Contexts with a deadline ([context.WithTimeout]) *)

Record Ctx := { deadline : option Z }.

Definition Background : Ctx := {| deadline := None |}.

Definition WithTimeout (parent : Ctx) (now : Z) (d : time.Duration) : Ctx :=
  {| deadline := Some (match deadline parent with
                       | Some p => Z.min p (now + d)
                       | None => now + d
                       end) |}.

(** ** Events of the coordinator goroutine

    [EvLog] is what reaches the log; the other events record calls made
    and returned, goroutines launched and joins, so that orderings can be
    stated.  Servers and callbacks are named by their position in
    [app.servers] and [app.cbs]. *)

Inductive Event :=
| EvLog (line : string)
| EvReject (i : nat)
| EvWaitCall (i : nat)
| EvWaitReturn (i : nat)
| EvStopCall (i : nat)
| EvStopReturn (i : nat) (err : option Error)
| EvGoCallback (j : nat) (ctx : Ctx)
| EvJoined
| EvCancel
| EvGoStart (i : nat)
| EvSignal
| EvGoWatcher.

Definition Timed := (Z * Event)%type.

(** ** The monad of the coordinator: a clock and the events produced *)

Definition M (A : Type) := Z -> A * Z * list Timed.

Definition ret {A} (a : A) : M A := fun t => (a, t, []).

Definition value {A} (r : A * Z * list Timed) : A := fst (fst r).
Definition finish {A} (r : A * Z * list Timed) : Z := snd (fst r).
Definition events {A} (r : A * Z * list Timed) : list Timed := snd r.

Definition bind {A B} (c : M A) (k : A -> M B) : M B :=
  fun t =>
    let r1 := c t in
    let r2 := k (value r1) (finish r1) in
    (value r2, finish r2, events r1 ++ events r2).

Notation "x <- c ;; k" := (bind c (fun x => k))
  (at level 61, c at next level, right associativity).
Notation "c ;; k" := (bind c (fun _ => k))
  (at level 61, right associativity).

Definition clock : M Z := fun t => (t, t, []).
Definition emit (e : Event) : M unit := fun t => (tt, t, [(t, e)]).
Definition log (line : string) : M unit := emit (EvLog line).
Definition elapse (d : time.Duration) : M unit := fun t => (tt, t + Z.max 0 d, []).
Definition sleepUntil (t' : Z) : M unit := fun t => (tt, Z.max t t', []).

(** What was written to the log, and what was called, launched or
    joined, in order. *)
Definition logged (es : list Timed) : list string :=
  flat_map (fun e => match snd e with EvLog l => [l] | _ => [] end) es.

Definition isLog (e : Event) : bool :=
  match e with EvLog _ => true | _ => false end.

Definition skeleton (es : list Timed) : list Event :=
  filter (fun e => negb (isLog e)) (map snd es).

(** [for _, x := range xs { body }] where the body may change what [x]
    points to; [i] is the position of [x]. *)
Fixpoint forRange {A} (body : nat -> A -> M A) (i : nat) (xs : list A) : M (list A) :=
  match xs with
  | [] => ret []
  | x :: xs' =>
      x' <- body i x ;;
      rest <- forRange body (S i) xs' ;;
      ret (x' :: rest)
  end.

(** ** What the environment decides during a run *)

Record Env := {
  (* the time at which the WaitGroup of server [i] is back at zero, when
     it is not zero already; [None] when that never happens *)
  wg_zero_at : nat -> option Z;
  (* the case [select] takes when both are ready at the same instant *)
  select_first : nat -> bool;
  (* how long [srv.Shutdown] of server [i] blocks, and what it returns *)
  Shutdown_takes : nat -> time.Duration;
  Shutdown_err : nat -> option Error;
  (* arrival times of the signals, in order *)
  signals : list Z;
  watcher_first : bool
}.

(** ** [App] *)

(** A callback is user code: given its context and the time it starts, it
    runs for some duration. *)
Definition ShutdownCallback := Ctx -> Z -> time.Duration.

Record App := {
  servers : list Server;
  app_shutdownTimeout : time.Duration;
  app_waitTime : time.Duration;
  app_cbTimeout : time.Duration;
  cbs : list ShutdownCallback
}.

Definition Option := App -> App.

Definition set_servers (l : list Server) (app : App) : App :=
  {| servers := l;
     app_shutdownTimeout := app_shutdownTimeout app;
     app_waitTime := app_waitTime app;
     app_cbTimeout := app_cbTimeout app;
     cbs := cbs app |}.

Definition set_cbs (l : list ShutdownCallback) (app : App) : App :=
  {| servers := servers app;
     app_shutdownTimeout := app_shutdownTimeout app;
     app_waitTime := app_waitTime app;
     app_cbTimeout := app_cbTimeout app;
     cbs := l |}.

Definition WithShutdownCallbacks (more : list ShutdownCallback) : Option :=
  fun app => set_cbs (cbs app ++ more) app.

(** The untyped constants become durations as they stand: 30, 10 and 3
    nanoseconds. *)
Definition NewApp (servers : list Server) (opts : list Option) : App :=
  fold_left (fun ap opt => opt ap) opts
    {| servers := servers;
       app_shutdownTimeout := shutdownTimeout;
       app_waitTime := waitTime;
       app_cbTimeout := cbTimeout;
       cbs := [] |}.

(** ** [Server] operations used by the coordinator *)

(** When [s.wg.Wait()] returns, for a call made at [t]. *)
Definition wgWait (s : Server) (zero_at : option Z) (t : Z) : option Z :=
  if WaitGroup.unblocked (wg s) then Some t
  else match zero_at with
       | Some z => Some (Z.max t z)
       | None => None
       end.

Definition drainedLine (s : Server) : string := name s ++ " 请求已处理完".
Definition timeoutLine (s : Server) : string := name s ++ "请求处理超时".

(** [waitInflight]: a goroutine waits on the WaitGroup and then sends on
    [ch]; the caller selects between [ch] and [time.After]. *)
Definition waitInflight (s : Server) (zero_at : option Z) (first : bool) : M unit :=
  t0 <- clock ;;
  let timer := t0 + time.Second * waitTime in
  match wgWait s zero_at t0 with
  | Some z =>
      if (z <? timer) || ((z =? timer) && first)
      then sleepUntil z ;; log (drainedLine s)
      else sleepUntil timer ;; log (timeoutLine s)
  | None => sleepUntil timer ;; log (timeoutLine s)
  end.

Definition stop (s : Server) (takes : time.Duration) (err : option Error) : M (option Error) :=
  log ("服务器" ++ name s ++ "关闭中") ;;
  elapse takes ;;
  ret err.

(** ** The coordinator *)

Definition longest (ds : list time.Duration) : time.Duration :=
  fold_right Z.max 0 ds.

(** [execCallBack]: one goroutine per callback, all handed [ctx]; the
    local WaitGroup is back at zero when the slowest has returned. *)
Definition execCallBack (app : App) (ctx : Ctx) : M unit :=
  t0 <- clock ;;
  forRange (fun j cb => emit (EvGoCallback j ctx) ;; ret cb) 0 (cbs app) ;;
  elapse (longest (map (fun cb => cb ctx t0) (cbs app))) ;;
  emit EvJoined.

Definition close : M unit :=
  elapse time.Second ;;
  log "应用关闭".

Definition rejectAll (l : list Server) : M (list Server) :=
  forRange (fun i srv => emit (EvReject i) ;; ret (rejectReq srv)) 0 l.

(** Body of the second loop: [srv.waitInflight()]. *)
Definition drainBody (env : Env) (i : nat) (srv : Server) : M Server :=
  emit (EvWaitCall i) ;;
  waitInflight srv (wg_zero_at env i) (select_first env i) ;;
  emit (EvWaitReturn i) ;;
  ret srv.

Definition waitAll (env : Env) (l : list Server) : M (list Server) :=
  forRange (drainBody env) 0 l.

(** Body of the third loop: [_ = srv.stop()]. *)
Definition stopBody (env : Env) (i : nat) (srv : Server) : M Server :=
  emit (EvStopCall i) ;;
  err <- stop srv (Shutdown_takes env i) (Shutdown_err env i) ;;
  emit (EvStopReturn i err) ;;
  ret srv.

Definition stopAll (env : Env) (l : list Server) : M (list Server) :=
  forRange (stopBody env) 0 l.

(** [shutdown]; its three loops over [app.servers] are [rejectAll],
    [waitAll] and [stopAll], run one after the other on the calling
    goroutine.  The deferred [cancel] runs last. *)
Definition shutdown (app : App) (env : Env) : M App :=
  t0 <- clock ;;
  let ctx := WithTimeout Background t0 (time.Second * cbTimeout) in
  log "开始关闭应用，停止接收新请求" ;;
  l1 <- rejectAll (servers app) ;;
  log "等待正在执行请求完结" ;;
  l2 <- waitAll env l1 ;;
  log "开始关闭服务器" ;;
  l3 <- stopAll env l2 ;;
  log "开始执行自定义回调" ;;
  execCallBack app ctx ;;
  log "开始释放资源" ;;
  close ;;
  emit EvCancel ;;
  ret (set_servers l3 app).

(** ** The supervisor *)

Record ForcedExit := {
  fires_at : Z;
  last_line : string;
  exit_code : Z
}.

(** The goroutine launched at the end of [StartAndServe]: it selects
    between the signal channel and [time.After], and calls [os.Exit(1)]
    in either case.  [pending] are the signals not yet received; the
    channel has room for one, so an early one is waiting in it. *)
Definition watcher (env : Env) (spawned : Z) (pending : list Z) : ForcedExit :=
  let timer := spawned + time.Second * shutdownTimeout in
  let onTimer := {| fires_at := timer; last_line := "退出超时，强制退出"; exit_code := 1 |} in
  match pending with
  | t2 :: _ =>
      let got := Z.max spawned t2 in
      if (got <? timer) || ((got =? timer) && watcher_first env)
      then {| fires_at := got; last_line := "主动强制退出"; exit_code := 1 |}
      else onTimer
  | [] => onTimer
  end.

(** [StartAndServe].  The servers' own goroutines log on their own; only
    their launch is recorded.  Without any signal the [select] never
    returns ([None]).  Otherwise the result is the state [shutdown] left
    and what the watcher goroutine does if the process is still there. *)
Definition StartAndServe (app : App) (env : Env) : M (option (App * ForcedExit)) :=
  forRange (fun i srv => emit (EvGoStart i) ;; ret srv) 0 (servers app) ;;
  match signals env with
  | [] => ret None
  | t1 :: pending =>
      sleepUntil t1 ;;
      emit EvSignal ;;
      app' <- shutdown app env ;;
      t <- clock ;;
      emit EvGoWatcher ;;
      ret (Some (app', watcher env t pending))
  end.

(** ** Quantities the statements below talk about *)

(** The time a call of [waitInflight] made at [t] takes. *)
Definition waitCost (s : Server) (zero_at : option Z) (first : bool) (t : Z) : time.Duration :=
  finish (waitInflight s zero_at first t) - t.

(** The times the successive calls of the drain loop take, the first one
    made at [t] and each next one when the previous has returned. *)
Fixpoint waitCosts (env : Env) (i : nat) (l : list Server) (t : Z) : list time.Duration :=
  match l with
  | [] => []
  | s :: l' =>
      let d := waitCost s (wg_zero_at env i) (select_first env i) t in
      d :: waitCosts env (S i) l' (t + d)
  end.

(** The times the same calls would take if all were made at [t]. *)
Fixpoint aloneCosts (env : Env) (i : nat) (l : list Server) (t : Z) : list time.Duration :=
  match l with
  | [] => []
  | s :: l' =>
      waitCost s (wg_zero_at env i) (select_first env i) t :: aloneCosts env (S i) l' t
  end.

(** When each call of the drain loop is made and when it returns. *)
Fixpoint drainTimeline (env : Env) (i : nat) (l : list Server) (t : Z) : list Timed :=
  match l with
  | [] => []
  | s :: l' =>
      let d := waitCost s (wg_zero_at env i) (select_first env i) t in
      (t, EvWaitCall i) :: (t + d, EvWaitReturn i) :: drainTimeline env (S i) l' (t + d)
  end.

Definition unlogged (es : list Timed) : list Timed :=
  filter (fun e => negb (isLog (snd e))) es.

Definition total (ds : list time.Duration) : time.Duration := fold_right Z.add 0 ds.

(** The phase an event belongs to; log lines carry none. *)
Definition phase (e : Event) : nat :=
  match e with
  | EvReject _ => 1
  | EvWaitCall _ | EvWaitReturn _ => 2
  | EvStopCall _ | EvStopReturn _ _ => 3
  | EvGoCallback _ _ | EvJoined => 4
  | EvCancel => 5
  | _ => 0
  end.

(** The context [shutdown] makes when it is entered at [t]. *)
Definition callbackCtx (t : Z) : Ctx :=
  WithTimeout Background t (time.Second * cbTimeout).

(** Same value, same end, same log. *)
Definition same_outcome {A} (r r' : A * Z * list Timed) : Prop :=
  value r = value r' /\ finish r = finish r' /\ logged (events r) = logged (events r').

(** The counter of a server is the number of [Handle] calls that have
    entered and not yet left. *)
Definition counts_handles (w : World) : Prop :=
  wg (server w) = Z.of_nat (List.length (calls w)).

Definition with_Shutdown_err (errs : nat -> option Error) (env : Env) : Env :=
  {| wg_zero_at := wg_zero_at env;
     select_first := select_first env;
     Shutdown_takes := Shutdown_takes env;
     Shutdown_err := errs;
     signals := signals env;
     watcher_first := watcher_first env |}.

End Service.

(** ** A table-driven multiplexer

    An instance of the [net/http] interface used to run the model on
    concrete inputs: exact-match routes, a panic on an empty or repeated
    pattern, a 404 answer otherwise.  A handler is the body it writes and
    a request is its path. *)

Definition tableHTTP : NetHTTP :=
  {| Handler := string;
     Request := string;
     ServeMux := list (string * string);
     NewServeMux := [];
     ServeMux_Handle := fun p h m =>
       if (p =? "")%string || existsb (fun e => (fst e =? p)%string) m
       then None else Some (m ++ [(p, h)]);
     ServeMux_ServeHTTP := fun m w r =>
       match find (fun e => (fst e =? r)%string) m with
       | Some (_, body) => w ++ [Write body]
       | None => w ++ [WriteHeader 404; Write "404 page not found"]
       end |}.

Definition tServer := @Server tableHTTP.
Definition tWorld := @World tableHTTP.
Definition tLabel := @Label tableHTTP.
Definition tApp := @App tableHTTP.

(** A server with one route, and the same server while a request for that
    route is being handled. *)
Definition routed : list tLabel :=
  [@LHandleAdd tableHTTP "/" "hello"%string; LHandleMux 0; LHandleDone 0].

Definition serveRoot : tLabel := @LServe tableHTTP "/"%string.

Definition busy : list tLabel := routed ++ [serveRoot].

(** The same server after [rejectReq] and one more request. *)
Definition rejected : list tLabel := routed ++ [@LRejectReq tableHTTP; serveRoot].

Definition world_of (ls : list tLabel) : tWorld :=
  match exec ls (@boot tableHTTP "api" ":8080") with
  | Some w => w
  | None => @boot tableHTTP "api" ":8080"
  end.

(** ** Runs used as examples *)

Definition seconds (n : Z) : time.Duration := n * time.Second.

(** Nothing pending, every [Shutdown] immediate and clean, one signal at
    time 0. *)
Definition calm : Env :=
  {| wg_zero_at := fun _ => None;
     select_first := fun _ => true;
     Shutdown_takes := fun _ => 0;
     Shutdown_err := fun _ => None;
     signals := [0];
     watcher_first := true |}.

(** Server 0 has a connection that keeps [Shutdown] busy for five
    seconds. *)
Definition slowStop (sigs : list Z) : Env :=
  {| wg_zero_at := fun _ => None;
     select_first := fun _ => true;
     Shutdown_takes := fun i => match i with O => seconds 5 | _ => 0 end;
     Shutdown_err := fun _ => None;
     signals := sigs;
     watcher_first := true |}.

(** The WaitGroup of server 0 is back at zero after 6 seconds, the one of
    server 1 after 15 seconds. *)
Definition lateHandles : Env :=
  {| wg_zero_at := fun i => match i with O => Some (seconds 6) | _ => Some (seconds 15) end;
     select_first := fun _ => true;
     Shutdown_takes := fun _ => 0;
     Shutdown_err := fun _ => None;
     signals := [0];
     watcher_first := true |}.

Definition api : tServer := @NewServer tableHTTP "api" ":8080".
Definition admin : tServer := @NewServer tableHTTP "admin" ":8081".

(** A server caught between the [Add] and the [Done] of a [Handle]. *)
Definition midHandle (s : tServer) : tServer :=
  match step (@LHandleAdd tableHTTP "/" "hello"%string)
             {| server := s; calls := []; inflight := []; answered := [] |} with
  | Some w => server w
  | None => s
  end.

(** A callback that works until the deadline of its context. *)
Definition untilDeadline : @ShutdownCallback :=
  fun ctx t => match deadline ctx with
               | Some d => d - t
               | None => 0
               end.

(** An option written by a client of the package: it sets the three
    timeout fields. *)
Definition withTimeouts (whole wait cb : time.Duration) : @Option tableHTTP :=
  fun app =>
    {| servers := servers app;
       app_shutdownTimeout := whole;
       app_waitTime := wait;
       app_cbTimeout := cb;
       cbs := cbs app |}.

Definition plainApp : tApp :=
  NewApp [api] [WithShutdownCallbacks [untilDeadline]].

Definition tunedApp : tApp :=
  NewApp [api] [withTimeouts (seconds 60) (seconds 1) (seconds 10);
                WithShutdownCallbacks [untilDeadline]].

Definition tunedBusyApp : tApp :=
  NewApp [midHandle api] [withTimeouts (seconds 60) (seconds 1) (seconds 10)].

(** What the watcher goroutine of a run does, if the run gets that far. *)
Definition forced {A} (r : option (A * ForcedExit) * Z * list Timed) : option ForcedExit :=
  option_map snd (value r).

Definition failingStop : Env := with_Shutdown_err (fun _ => Some "listener gone"%string) calm.

(** * Package [annotation]
      ([advance/template/gen/annotation/annotation.go])

    Annotations are read off the comments of a syntax node.  A Go string
    is a sequence of bytes, as a [string] is here; indices are [int]
    values held in [Z].  A nil slice and an empty one are both the empty
    list, and the comments of a group are taken to be non-nil, as the
    parser makes them. *)

Module annotation.

(** [s[lo:hi]] on a string; [None] is the run-time panic for bounds out
    of range. *)
Definition slice (s : string) (lo hi : Z) : option string :=
  if (0 <=? lo) && (lo <=? hi) && (hi <=? Z.of_nat (String.length s))
  then Some (substring (Z.to_nat lo) (Z.to_nat (hi - lo)) s)
  else None.

Definition len (s : string) : Z := Z.of_nat (String.length s).

(** [strings.HasPrefix]. *)
Fixpoint HasPrefix (s prefix : string) {struct prefix} : bool :=
  match prefix with
  | EmptyString => true
  | String a prefix' =>
      match s with
      | EmptyString => false
      | String b s' => Ascii.eqb a b && HasPrefix s' prefix'
      end
  end.

(** Where the first space of [s] cuts it, if there is one. *)
Fixpoint cutSpace (s : string) : option (string * string) :=
  match s with
  | EmptyString => None
  | String c s' =>
      if Ascii.eqb c " "%char then Some (EmptyString, s')
      else match cutSpace s' with
           | Some (a, b) => Some (String c a, b)
           | None => None
           end
  end.

(** [strings.SplitN(s, " ", 2)]: one piece without a space in [s], else
    what is before the first space and what is after it. *)
Definition SplitN_space_2 (s : string) : list string :=
  match cutSpace s with
  | Some (a, b) => [a; b]
  | None => [s]
  end.

(** [ast.Comment] and [ast.CommentGroup]. *)
Record Comment := { Slash : Z; Text : string }.
Record CommentGroup := { List : list Comment }.

Record Annotation := { Key : string; Value : string }.

Record Annotations (NN : Type) := { Node : NN; Ans : list Annotation }.
Arguments Node {NN} _.
Arguments Ans {NN} _.

Definition zero : Annotation := {| Key := ""; Value := "" |}.

(** The loop of [Get]. *)
Fixpoint firstWith (key : string) (ans : list Annotation) : Annotation * bool :=
  match ans with
  | [] => (zero, false)
  | an :: rest => if (Key an =? key)%string then (an, true) else firstWith key rest
  end.

Definition Get {NN} (a : Annotations NN) (key : string) : Annotation * bool :=
  firstWith key (Ans a).

Definition extractContent (c : Comment) : option (string * bool) :=
  let text := Text c in
  if HasPrefix text "// " then
    option_map (fun s => (s, true)) (slice text 3 (len text))
  else if HasPrefix text "/* " then
    let length := len text in
    option_map (fun s => (s, true)) (slice text 3 (length - 2))
  else Some (EmptyString, false).

(** The body of the loop of [newAnnotations] for a content that starts
    with [@]: the annotation appended. *)
Definition annotationOf (text : string) : option Annotation :=
  let segs := SplitN_space_2 text in
  match nth_error segs 0 with
  | None => None
  | Some seg0 =>
      match slice seg0 1 (len seg0) with
      | None => None
      | Some key =>
          let val := if (List.length segs =? 2)%nat
                     then nth 1 segs EmptyString
                     else EmptyString in
          Some {| Key := key; Value := val |}
      end
  end.

(** The loop of [newAnnotations]; [None] when a step panics. *)
Fixpoint collect (cs : list Comment) (ans : list Annotation) : option (list Annotation) :=
  match cs with
  | [] => Some ans
  | c :: cs' =>
      match extractContent c with
      | None => None
      | Some (text, ok) =>
          if negb ok then collect cs' ans
          else if HasPrefix text "@" then
            match annotationOf text with
            | None => None
            | Some an => collect cs' (ans ++ [an])
            end
          else collect cs' ans
      end
  end.

Definition newAnnotations {NN} (n : NN) (cg : option CommentGroup) : option (Annotations NN) :=
  match cg with
  | None => Some {| Node := n; Ans := [] |}
  | Some g =>
      if (List.length (List g) =? 0)%nat then Some {| Node := n; Ans := [] |}
      else option_map (fun ans => {| Node := n; Ans := ans |}) (collect (List g) [])
  end.

(** A line comment that carries the annotation [key] with [val]. *)
Definition lineComment (kv : string * string) : Comment :=
  {| Slash := 0; Text := "// @" ++ fst kv ++ " " ++ snd kv |}.

Definition asAnnotation (kv : string * string) : Annotation :=
  {| Key := fst kv; Value := snd kv |}.

Fixpoint spaceFree (s : string) : bool :=
  match s with
  | EmptyString => true
  | String c s' => negb (Ascii.eqb c " "%char) && spaceFree s'
  end.

End annotation.

(** ** Further quantities *)

Section Counting.
Context `{http : NetHTTP}.

(** The line [stop] writes before it calls [Shutdown]. *)
Definition stopLine (s : Server) : string := "服务器" ++ name s ++ "关闭中".

Definition isFinish (l : Label) : bool :=
  match l with LFinish _ => true | _ => false end.

End Counting.

(** An application whose only server is handling a request when the
    signal comes. *)
Definition busyApp : tApp := NewApp [server (world_of busy)] [].

(** After [busy]: the flag is set, a second request for the same route
    arrives, and then the first request ends. *)
Definition lateRequest : list tLabel := [serveRoot].

Definition flipped : list tLabel := busy ++ @LRejectReq tableHTTP :: lateRequest.

(** Two callbacks, of two and of five seconds, that ignore their
    context. *)
Definition twoCallbacks : tApp :=
  NewApp [api] [WithShutdownCallbacks [fun _ _ => 2000000000];
                WithShutdownCallbacks [fun _ _ => 5000000000]].

Definition sampleAnnotations : list (string * string) :=
  [("route", "/api/v1 users"); ("auth", "admin"); ("route", "/second")]%string.

(** No signal ever arrives. *)
Definition silent : Env :=
  {| wg_zero_at := fun _ => None;
     select_first := fun _ => true;
     Shutdown_takes := fun _ => 0;
     Shutdown_err := fun _ => None;
     signals := [];
     watcher_first := true |}.

(** * Properties *)

Section Gate.
Context `{http : NetHTTP}.

Lemma length_replace_nth {A} (k : nat) (y : A) (l : list A) :
  List.length (replace_nth k y l) = List.length l.
Proof.
  revert k; induction l as [|x l IH]; intros [|k]; simpl; auto.
Qed.

Lemma length_remove_nth {A} (k : nat) (l : list A) (x : A) :
  nth_error l k = Some x -> S (List.length (remove_nth k l)) = List.length l.
Proof.
  revert k; induction l as [|a l IH]; intros [|k] H; simpl in *;
    try discriminate; auto.
Qed.

Lemma Add_Done (c : Z) :
  0 <= c -> WaitGroup.Add 1 c = Some (c + 1) /\ WaitGroup.Done (c + 1) = Some c.
Proof.
  intros Hc. unfold WaitGroup.Done, WaitGroup.Add.
  destruct (Z.ltb_spec (c + 1) 0); [lia|].
  destruct (Z.ltb_spec (c + 1 + -1) 0); [lia|].
  split; [reflexivity | f_equal; lia].
Qed.

Lemma step_counts_handles (l : Label) (w w' : World) :
  step l w = Some w' -> counts_handles w -> counts_handles w'.
Proof.
  unfold counts_handles. destruct l as [p h|k|k|r|k|]; simpl; intros Hs Hw.
  - unfold WaitGroup.Add in Hs.
    destruct (wg (server w) + 1 <? 0); inversion Hs; subst; simpl.
    rewrite length_app; simpl. lia.
  - destruct (nth_error (calls w) k) as [[p h [|b]]|]; try discriminate.
    destruct (ServeMux_Handle p h (embedded (mux (server w))));
      inversion Hs; subst; simpl; rewrite length_replace_nth; exact Hw.
  - destruct (nth_error (calls w) k) as [[p h [|b]]|] eqn:E; try discriminate.
    unfold WaitGroup.Done, WaitGroup.Add in Hs.
    destruct (wg (server w) + -1 <? 0); inversion Hs; subst; simpl.
    apply length_remove_nth in E. lia.
  - destruct (ServeHTTP (mux (server w)) [] r); inversion Hs; subst; exact Hw.
  - destruct (nth_error (inflight w) k) as [[[m wr] r]|]; inversion Hs; subst; exact Hw.
  - inversion Hs; subst; exact Hw.
Qed.

Lemma exec_counts_handles (ls : list Label) (w w' : World) :
  exec ls w = Some w' -> counts_handles w -> counts_handles w'.
Proof.
  revert w; induction ls as [|l ls IH]; simpl; intros w He Hw.
  - inversion He; subst; exact Hw.
  - destruct (step l w) as [w1|] eqn:E; [|discriminate].
    eapply IH; eauto using step_counts_handles.
Qed.

Lemma boot_counts_handles (n a : string) : counts_handles (boot n a).
Proof. reflexivity. Qed.

(** Once set, the flag stays set: no action clears it. *)
Lemma step_keeps_reject (l : Label) (w w' : World) :
  step l w = Some w' ->
  reject (mux (server w)) = true -> reject (mux (server w')) = true.
Proof.
  destruct l as [p h|k|k|r|k|]; simpl; intros Hs Hw.
  - destruct (WaitGroup.Add 1 (wg (server w))); inversion Hs; subst; exact Hw.
  - destruct (nth_error (calls w) k) as [[p h [|b]]|]; try discriminate.
    destruct (ServeMux_Handle p h (embedded (mux (server w))));
      inversion Hs; subst; exact Hw.
  - destruct (nth_error (calls w) k) as [[p h [|b]]|]; try discriminate.
    destruct (WaitGroup.Done (wg (server w))); inversion Hs; subst; exact Hw.
  - destruct (ServeHTTP (mux (server w)) [] r); inversion Hs; subst; exact Hw.
  - destruct (nth_error (inflight w) k) as [[[m wr] r]|]; inversion Hs; subst; exact Hw.
  - inversion Hs; subst; reflexivity.
Qed.

Lemma exec_keeps_reject (ls : list Label) (w w' : World) :
  exec ls w = Some w' ->
  reject (mux (server w)) = true -> reject (mux (server w')) = true.
Proof.
  revert w; induction ls as [|l ls IH]; simpl; intros w He Hw.
  - inversion He; subst; exact Hw.
  - destruct (step l w) as [w1|] eqn:E; [|discriminate].
    eapply IH; eauto using step_keeps_reject.
Qed.

Lemma Handle_restores_wg (s : Server) (pattern : string) (handler : Handler) :
  0 <= wg s -> wg (after (Handle s pattern handler)) = wg s.
Proof.
  intros Hc. unfold Handle.
  destruct (Add_Done (wg s) Hc) as [Ha Hd]. rewrite Ha.
  destruct (ServeMux_Handle pattern handler _); cbn -[WaitGroup.Done];
    rewrite Hd; reflexivity.
Qed.

(** What a call of [waitInflight] made at [t] amounts to. *)
Lemma waitInflight_run (s : Server) (zero_at : option Z) (first : bool) (t : Z) :
  waitInflight s zero_at first t =
  let timer := t + time.Second * waitTime in
  match wgWait s zero_at t with
  | Some z =>
      if (z <? timer) || ((z =? timer) && first)
      then (tt, Z.max t z, [(Z.max t z, EvLog (drainedLine s))])
      else (tt, Z.max t timer, [(Z.max t timer, EvLog (timeoutLine s))])
  | None => (tt, Z.max t timer, [(Z.max t timer, EvLog (timeoutLine s))])
  end.
Proof.
  unfold waitInflight, bind, clock; cbn -[Z.add Z.mul Z.max Z.ltb Z.eqb wgWait].
  destruct (wgWait s zero_at t) as [z|]; [|reflexivity].
  destruct ((z <? _) || _); reflexivity.
Qed.

Lemma timer_ahead (t : Z) : t < t + time.Second * waitTime.
Proof. unfold time.Second, time.Nanosecond, waitTime. lia. Qed.

(** C9: while the reject flag is false the gate hands every request,
    with the same writer and the same request, to the embedded
    multiplexer; once [rejectReq] has run, whatever happens afterwards,
    every request is answered by the gate itself with status 503 and the
    fixed body, and does not enter the multiplexer. *)
Theorem gate_forwards_until_rejected
    (w w' : World) (ls : list Label) (wr : ResponseWriter) (r : Request) :
  (reject (mux (server w)) = false ->
     ServeHTTP (mux (server w)) wr r = Delegated (embedded (mux (server w))) wr r /\
     step (LServe r) w =
       Some {| server := server w;
               calls := calls w;
               inflight := inflight w ++ [(embedded (mux (server w)), [], r)];
               answered := answered w |}) /\
  (exec (LRejectReq :: ls) w = Some w' ->
     ServeHTTP (mux (server w')) wr r =
       Answered (wr ++ [WriteHeader 503; Write "服务已关闭"]) /\
     step (LServe r) w' =
       Some {| server := server w';
               calls := calls w';
               inflight := inflight w';
               answered := answered w' ++ [(r, [WriteHeader 503; Write "服务已关闭"])] |}).
Proof.
  split.
  - intros Hf. unfold step, ServeHTTP. rewrite Hf. split; reflexivity.
  - intros He. simpl in He.
    assert (Hr : reject (mux (server w')) = true).
    { eapply exec_keeps_reject; [exact He | reflexivity]. }
    unfold step, ServeHTTP. rewrite Hr. split; reflexivity.
Qed.

(** C10: [Handle] undoes its own increment before it is over, so when no
    [Handle] call is under way the WaitGroup counter of a server is zero,
    and it stays zero through any further complete [Handle] call; the
    wait of [waitInflight] is then over at once, with the line of a
    finished drain, whatever requests are being handled. *)
Theorem waitgroup_idle_outside_Handle
    (n a : string) (ls : list Label) (w : World)
    (zero_at : option Z) (first : bool) (t : Z) :
  exec ls (boot n a) = Some w ->
  calls w = [] ->
  wg (server w) = 0 /\
  (forall p h, wg (after (Handle (server w) p h)) = 0) /\
  finish (waitInflight (server w) zero_at first t) = t /\
  logged (events (waitInflight (server w) zero_at first t)) = [drainedLine (server w)].
Proof.
  intros He Hc.
  assert (H0 : wg (server w) = 0).
  { pose proof (exec_counts_handles _ _ _ He (boot_counts_handles n a)) as Hi.
    unfold counts_handles in Hi. rewrite Hc in Hi. exact Hi. }
  split; [exact H0|]. split.
  - intros p h. rewrite Handle_restores_wg; lia.
  - rewrite waitInflight_run. unfold wgWait, WaitGroup.unblocked.
    rewrite H0. cbv zeta. change (0 =? 0) with true. cbv iota.
    rewrite (proj2 (Z.ltb_lt _ _) (timer_ahead t)).
    rewrite orb_true_l, Z.max_id. split; reflexivity.
Qed.

(** Serving a request, rejected or not, and finishing one leave the
    counter alone. *)
Lemma serve_keeps_wg (w w' : World) (r : Request) (k : nat) :
  step (LServe r) w = Some w' \/ step (LFinish k) w = Some w' ->
  wg (server w') = wg (server w).
Proof.
  simpl. intros [Hs|Hs].
  - destruct (ServeHTTP (mux (server w)) [] r); inversion Hs; reflexivity.
  - destruct (nth_error (inflight w) k) as [[[m wr] r']|]; inversion Hs; reflexivity.
Qed.

End Gate.

Section Coordinator.
Context `{http : NetHTTP}.

(** ** Running the monad *)

Lemma events_bind {A B} (c : M A) (k : A -> M B) (t : Z) :
  events (bind c k t) = events (c t) ++ events (k (value (c t)) (finish (c t))).
Proof. reflexivity. Qed.

Lemma finish_bind {A B} (c : M A) (k : A -> M B) (t : Z) :
  finish (bind c k t) = finish (k (value (c t)) (finish (c t))).
Proof. reflexivity. Qed.

Lemma value_bind {A B} (c : M A) (k : A -> M B) (t : Z) :
  value (bind c k t) = value (k (value (c t)) (finish (c t))).
Proof. reflexivity. Qed.

Lemma skeleton_app (es es' : list Timed) :
  skeleton (es ++ es') = skeleton es ++ skeleton es'.
Proof. unfold skeleton. rewrite map_app, filter_app. reflexivity. Qed.

Lemma logged_app (es es' : list Timed) :
  logged (es ++ es') = logged es ++ logged es'.
Proof. unfold logged. apply flat_map_app. Qed.

(** ** Loops *)

Section Range.
Context {A : Type} (body : nat -> A -> M A).

Lemma forRange_value (g : A -> A) :
  (forall i x t, value (body i x t) = g x) ->
  forall xs i t, value (forRange body i xs t) = map g xs.
Proof.
  intros Hb; induction xs as [|x xs IH]; intros i t; [reflexivity|].
  cbn [forRange]. rewrite !value_bind. cbn [ret value fst].
  rewrite Hb, IH. reflexivity.
Qed.

Lemma forRange_skeleton (f : nat -> list Event) :
  (forall i x t, skeleton (events (body i x t)) = f i) ->
  forall xs i t,
    skeleton (events (forRange body i xs t)) = flat_map f (seq i (List.length xs)).
Proof.
  intros Hb; induction xs as [|x xs IH]; intros i t; [reflexivity|].
  cbn [forRange]. rewrite !events_bind, !skeleton_app. cbn [ret events snd].
  rewrite Hb, IH. cbn [List.length seq flat_map skeleton map filter].
  rewrite app_nil_r. reflexivity.
Qed.

End Range.

(** Two bodies that agree on what they return, on when they finish and on
    what they log make loops that agree on the same. *)
Lemma forRange_same_outcome {A} (body body' : nat -> A -> M A) :
  (forall i x t, same_outcome (body i x t) (body' i x t)) ->
  forall xs i t, same_outcome (forRange body i xs t) (forRange body' i xs t).
Proof.
  intros Hb; induction xs as [|x xs IH]; intros i t.
  - repeat split.
  - destruct (Hb i x t) as (Hv & Hf & Hl).
    cbn [forRange]. unfold same_outcome.
    rewrite !value_bind, !finish_bind, !events_bind, !logged_app.
    cbn [ret value finish events fst snd logged flat_map].
    rewrite Hv, Hf, Hl.
    destruct (IH (S i) (finish (body' i x t))) as (Hv' & Hf' & Hl').
    rewrite Hv', Hf', Hl'. repeat split.
Qed.

(** ** The phases of [shutdown], one after the other *)

Lemma shutdown_run (app : App) (env : Env) (t : Z) :
  let r1 := rejectAll (servers app) t in
  let r2 := waitAll env (value r1) (finish r1) in
  let r3 := stopAll env (value r2) (finish r2) in
  let r4 := execCallBack app (callbackCtx t) (finish r3) in
  let r5 := close (finish r4) in
  shutdown app env t =
  (set_servers (value r3) app,
   finish r5,
   [(t, EvLog "开始关闭应用，停止接收新请求")] ++ events r1 ++
   [(finish r1, EvLog "等待正在执行请求完结")] ++ events r2 ++
   [(finish r2, EvLog "开始关闭服务器")] ++ events r3 ++
   [(finish r3, EvLog "开始执行自定义回调")] ++ events r4 ++
   [(finish r4, EvLog "开始释放资源")] ++ events r5 ++
   [(finish r5, EvCancel)]).
Proof. reflexivity. Qed.

Lemma flat_map_single {A B} (g : A -> B) (l : list A) :
  flat_map (fun x => [g x]) l = map g l.
Proof. induction l as [|x l IH]; simpl; congruence. Qed.

Lemma waitInflight_skeleton (s : Server) (zero_at : option Z) (first : bool) (t : Z) :
  skeleton (events (waitInflight s zero_at first t)) = [].
Proof.
  rewrite waitInflight_run. cbv zeta.
  destruct (wgWait s zero_at t) as [z|]; [|reflexivity].
  destruct ((z <? _) || _); reflexivity.
Qed.

Lemma rejectAll_skeleton (l : list Server) (t : Z) :
  skeleton (events (rejectAll l t)) = map EvReject (seq 0 (List.length l)).
Proof.
  unfold rejectAll.
  rewrite (forRange_skeleton _ (fun i => [EvReject i])), flat_map_single; reflexivity.
Qed.

Lemma rejectAll_value (l : list Server) (t : Z) :
  value (rejectAll l t) = map rejectReq l.
Proof. unfold rejectAll. apply forRange_value. reflexivity. Qed.

Lemma waitAll_skeleton (env : Env) (l : list Server) (t : Z) :
  skeleton (events (waitAll env l t)) =
  flat_map (fun i => [EvWaitCall i; EvWaitReturn i]) (seq 0 (List.length l)).
Proof.
  unfold waitAll. apply forRange_skeleton. intros i x t'. unfold drainBody.
  rewrite !events_bind, !skeleton_app, waitInflight_skeleton. reflexivity.
Qed.

Lemma waitAll_value (env : Env) (l : list Server) (t : Z) :
  value (waitAll env l t) = l.
Proof.
  unfold waitAll. rewrite (forRange_value _ (fun x => x)), map_id; reflexivity.
Qed.

Lemma stopAll_skeleton (env : Env) (l : list Server) (t : Z) :
  skeleton (events (stopAll env l t)) =
  flat_map (fun i => [EvStopCall i; EvStopReturn i (Shutdown_err env i)])
           (seq 0 (List.length l)).
Proof. unfold stopAll. apply forRange_skeleton. reflexivity. Qed.

Lemma stopAll_value (env : Env) (l : list Server) (t : Z) :
  value (stopAll env l t) = l.
Proof.
  unfold stopAll. rewrite (forRange_value _ (fun x => x)), map_id; reflexivity.
Qed.

Lemma execCallBack_skeleton (app : App) (ctx : Ctx) (t : Z) :
  skeleton (events (execCallBack app ctx t)) =
  map (fun j => EvGoCallback j ctx) (seq 0 (List.length (cbs app))) ++ [EvJoined].
Proof.
  unfold execCallBack. rewrite !events_bind, !skeleton_app.
  rewrite (forRange_skeleton _ (fun j => [EvGoCallback j ctx])), flat_map_single;
    reflexivity.
Qed.

(** What [shutdown] calls, launches and joins, in order. *)
Lemma shutdown_skeleton (app : App) (env : Env) (t : Z) :
  let n := List.length (servers app) in
  skeleton (events (shutdown app env t)) =
  (map EvReject (seq 0 n) ++
   flat_map (fun i => [EvWaitCall i; EvWaitReturn i]) (seq 0 n)) ++
  flat_map (fun i => [EvStopCall i; EvStopReturn i (Shutdown_err env i)]) (seq 0 n) ++
  map (fun j => EvGoCallback j (callbackCtx t)) (seq 0 (List.length (cbs app))) ++
  [EvJoined; EvCancel].
Proof.
  intros n. rewrite shutdown_run. cbv zeta. unfold events at 1. cbn [snd].
  repeat (rewrite skeleton_app).
  rewrite rejectAll_skeleton, waitAll_skeleton, stopAll_skeleton, execCallBack_skeleton.
  rewrite waitAll_value, rejectAll_value, length_map.
  cbn [skeleton map filter snd isLog negb close].
  rewrite <- !app_assoc. reflexivity.
Qed.

(** ** Order inside a trace *)

Lemma earlier_phases_before (k : nat) (l1 l2 before after : list Event) (e : Event) :
  Forall (fun x => (phase x < k)%nat) l1 ->
  l1 ++ l2 = before ++ e :: after ->
  (k <= phase e)%nat ->
  exists rest, before = l1 ++ rest.
Proof.
  revert before; induction l1 as [|x l1 IH]; intros before Hl Heq Hk.
  - exists before. reflexivity.
  - inversion Hl as [|? ? Hx Hl1]; subst.
    destruct before as [|b before]; simpl in Heq; inversion Heq; subst.
    + lia.
    + destruct (IH before Hl1 H1 Hk) as [rest ->]. exists rest. reflexivity.
Qed.

Lemma Forall_phase_map {A} (g : A -> Event) (P : nat -> Prop) (l : list A) :
  (forall x, P (phase (g x))) -> Forall (fun e => P (phase e)) (map g l).
Proof. intros H. apply Forall_forall. intros e He. apply in_map_iff in He as (x & <- & _). apply H. Qed.

Lemma Forall_phase_pairs {A} (g g' : A -> Event) (P : nat -> Prop) (l : list A) :
  (forall x, P (phase (g x)) /\ P (phase (g' x))) ->
  Forall (fun e => P (phase e)) (flat_map (fun x => [g x; g' x]) l).
Proof.
  intros H. apply Forall_forall. intros e He.
  apply in_flat_map in He as (x & _ & [<-|[<-|[]]]); apply H.
Qed.

Lemma close_logged (t : Z) : logged (events (close t)) = ["应用关闭"%string].
Proof. reflexivity. Qed.

Lemma logged_cons (t : Z) (e : Event) (es : list Timed) :
  logged ((t, e) :: es) = match e with EvLog l => l :: logged es | _ => logged es end.
Proof. destruct e; reflexivity. Qed.

(** Name the results of the five phases of a run of [shutdown]. *)
Ltac phases app env t :=
  rewrite (shutdown_run app env t); cbv zeta;
  set (r1 := rejectAll (servers app) t);
  set (r2 := waitAll env (value r1) (finish r1));
  set (r3 := stopAll env (value r2) (finish r2));
  set (r4 := execCallBack app (callbackCtx t) (finish r3));
  set (r5 := close (finish r4)).

Ltac flatten_apps := repeat (progress (cbn [List.app]; rewrite <- ?app_assoc)).

(** C3: [shutdown] goes through all its phases, and in order: every
    server is told to reject, then every server's wait is called and
    returns, then every server's [stop] is called and returns, then
    every callback is launched and joined, then resources are released.
    Whenever a wait is called every server has been told to reject;
    whenever a [stop] is called every server's wait has returned;
    whenever a callback is launched every server's [stop] has returned. *)
Theorem shutdown_phase_barriers (app : App) (env : Env) (t : Z) :
  let n := List.length (servers app) in
  let sk := skeleton (events (shutdown app env t)) in
  sk = map EvReject (seq 0 n) ++
       flat_map (fun i => [EvWaitCall i; EvWaitReturn i]) (seq 0 n) ++
       flat_map (fun i => [EvStopCall i; EvStopReturn i (Shutdown_err env i)]) (seq 0 n) ++
       map (fun j => EvGoCallback j (callbackCtx t)) (seq 0 (List.length (cbs app))) ++
       [EvJoined; EvCancel] /\
  (exists ls, logged (events (shutdown app env t)) = ls ++ ["开始释放资源"; "应用关闭"]%string) /\
  (forall before e after, sk = before ++ e :: after ->
     (phase e = 2%nat -> forall i, (i < n)%nat -> In (EvReject i) before) /\
     (phase e = 3%nat -> forall i, (i < n)%nat -> In (EvWaitReturn i) before) /\
     (phase e = 4%nat -> forall i, (i < n)%nat ->
        In (EvStopReturn i (Shutdown_err env i)) before)).
Proof.
  intros n sk. pose proof (shutdown_skeleton app env t) as Hsk.
  cbv zeta in Hsk. fold n sk in Hsk.
  split; [rewrite Hsk, <- app_assoc; reflexivity|]. split.
  - phases app env t. unfold events at 1. cbn [snd].
    rewrite !logged_app. unfold r5 at 1. rewrite close_logged.
    rewrite !logged_cons. cbn [logged flat_map].
    exists ("开始关闭应用，停止接收新请求"%string :: logged (events r1) ++
            "等待正在执行请求完结"%string :: logged (events r2) ++
            "开始关闭服务器"%string :: logged (events r3) ++
            "开始执行自定义回调"%string :: logged (events r4)).
    flatten_apps. reflexivity.
  - intros before e after Heq.
    assert (HR : Forall (fun x => (phase x < 2)%nat) (map EvReject (seq 0 n))).
    { apply (Forall_phase_map EvReject (fun p => (p < 2)%nat)). intros; simpl; lia. }
    assert (HW : Forall (fun x => (phase x < 3)%nat)
                   (map EvReject (seq 0 n) ++
                    flat_map (fun i => [EvWaitCall i; EvWaitReturn i]) (seq 0 n))).
    { apply Forall_app; split.
      - apply (Forall_phase_map EvReject (fun p => (p < 3)%nat)). intros; simpl; lia.
      - apply (Forall_phase_pairs EvWaitCall EvWaitReturn (fun p => (p < 3)%nat)).
        intros; simpl; lia. }
    assert (HS : Forall (fun x => (phase x < 4)%nat)
                   ((map EvReject (seq 0 n) ++
                     flat_map (fun i => [EvWaitCall i; EvWaitReturn i]) (seq 0 n)) ++
                    flat_map (fun i => [EvStopCall i; EvStopReturn i (Shutdown_err env i)])
                             (seq 0 n))).
    { apply Forall_app; split.
      - eapply Forall_impl; [|exact HW]. simpl; intros; lia.
      - apply (Forall_phase_pairs EvStopCall
                 (fun i => EvStopReturn i (Shutdown_err env i)) (fun p => (p < 4)%nat)).
        intros; simpl; lia. }
    rewrite Hsk in Heq. repeat split; intros He i Hi.
    + rewrite <- app_assoc in Heq.
      destruct (earlier_phases_before 2 _ _ _ _ _ HR Heq) as [rest ->]; [lia|].
      apply in_or_app; left. apply in_map, in_seq. lia.
    + destruct (earlier_phases_before 3 _ _ _ _ _ HW Heq) as [rest ->]; [lia|].
      apply in_or_app; left. apply in_or_app; right.
      apply in_flat_map. exists i. split; [apply in_seq; lia | simpl; auto].
    + rewrite app_assoc in Heq.
      destruct (earlier_phases_before 4 _ _ _ _ _ HS Heq) as [rest ->]; [lia|].
      apply in_or_app; left. apply in_or_app; right.
      apply in_flat_map. exists i. split; [apply in_seq; lia | simpl; auto].
Qed.

(** ** The drain wait *)

Lemma wgWait_ge (s : Server) (zero_at : option Z) (t z : Z) :
  wgWait s zero_at t = Some z -> t <= z.
Proof.
  unfold wgWait. destruct (WaitGroup.unblocked (wg s)); [|destruct zero_at];
    intros H; inversion H; lia.
Qed.

Lemma waitInflight_finish (s : Server) (zero_at : option Z) (first : bool) (t : Z) :
  finish (waitInflight s zero_at first t) =
  match wgWait s zero_at t with
  | Some z => Z.min z (t + time.Second * waitTime)
  | None => t + time.Second * waitTime
  end.
Proof.
  rewrite waitInflight_run. cbv zeta. pose proof (timer_ahead t) as Ht.
  destruct (wgWait s zero_at t) as [z|] eqn:E; [|cbn [finish fst snd]; lia].
  apply wgWait_ge in E.
  destruct (Z.ltb_spec z (t + time.Second * waitTime)); cbn [orb].
  - cbn [finish fst snd]. lia.
  - destruct (Z.eqb_spec z (t + time.Second * waitTime)), first;
      cbn [andb finish fst snd]; lia.
Qed.

Lemma waitCost_bounds (s : Server) (zero_at : option Z) (first : bool) (t : Z) :
  0 <= waitCost s zero_at first t <= time.Second * waitTime.
Proof.
  unfold waitCost. rewrite waitInflight_finish. pose proof (timer_ahead t) as Ht.
  destruct (wgWait s zero_at t) as [z|] eqn:E; [apply wgWait_ge in E|]; lia.
Qed.

(** What [waitInflight] does with the WaitGroup it is given: a call ends
    when the WaitGroup counter is back at zero or when the drain timeout
    of ten seconds is over, whichever comes first; it returns nothing in
    either case and writes one line to the log that tells which of the
    two happened; [shutdown] goes on to call [stop] on every server
    whatever the waits did.  What the WaitGroup counts is another
    matter: see [request_in_flight_not_counted]. *)
Theorem waitInflight_zero_or_timeout
    (s : Server) (zero_at : option Z) (first : bool) (t : Z)
    (app : App) (env : Env) (t0 : Z) :
  let r := waitInflight s zero_at first t in
  let timer := t + time.Second * waitTime in
  finish r = match wgWait s zero_at t with
             | Some z => Z.min z timer
             | None => timer
             end /\
  value r = tt /\
  skeleton (events r) = [] /\
  (logged (events r) = [drainedLine s] \/ logged (events r) = [timeoutLine s]) /\
  (forall z, wgWait s zero_at t = Some z -> z < timer ->
             logged (events r) = [drainedLine s]) /\
  (forall z, wgWait s zero_at t = Some z -> timer < z ->
             logged (events r) = [timeoutLine s]) /\
  (wgWait s zero_at t = None -> logged (events r) = [timeoutLine s]) /\
  (forall i, (i < List.length (servers app))%nat ->
             In (EvStopCall i) (skeleton (events (shutdown app env t0)))).
Proof.
  intros r timer. split; [apply waitInflight_finish|].
  split; [destruct (value r); reflexivity|].
  split; [apply waitInflight_skeleton|].
  assert (Hrun := waitInflight_run s zero_at first t). cbv zeta in Hrun.
  fold r timer in Hrun.
  repeat split.
  - rewrite Hrun. destruct (wgWait s zero_at t) as [z|]; [|right; reflexivity].
    destruct ((z <? timer) || _); [left | right]; reflexivity.
  - intros z E Hz. rewrite Hrun, E.
    rewrite (proj2 (Z.ltb_lt _ _) Hz). reflexivity.
  - intros z E Hz. rewrite Hrun, E.
    destruct (Z.ltb_spec z timer); [lia|].
    destruct (Z.eqb_spec z timer); [lia|]. reflexivity.
  - intros E. rewrite Hrun, E. reflexivity.
  - intros i Hi. rewrite shutdown_skeleton. cbv zeta.
    apply in_or_app; right. apply in_or_app; left.
    apply in_flat_map. exists i. split; [apply in_seq; lia | simpl; auto].
Qed.

(** ** The stop phase *)

Lemma stopAll_same_outcome (env : Env) (errs : nat -> option Error)
    (l : list Server) (t : Z) :
  same_outcome (stopAll (with_Shutdown_err errs env) l t) (stopAll env l t).
Proof.
  unfold stopAll. apply forRange_same_outcome. intros i x t'. repeat split.
Qed.

(** C8, as the code has it: what [stop] returns is dropped.  Whatever
    errors the servers' [stop] calls return, [shutdown] returns the same
    application state at the same time with the same log, calls [stop]
    on every server, and launches every callback afterwards. *)
Theorem stop_errors_dropped
    (app : App) (env : Env) (errs : nat -> option Error) (t : Z) :
  let n := List.length (servers app) in
  let r := shutdown app (with_Shutdown_err errs env) t in
  same_outcome r (shutdown app env t) /\
  skeleton (events r) =
    map EvReject (seq 0 n) ++
    flat_map (fun i => [EvWaitCall i; EvWaitReturn i]) (seq 0 n) ++
    flat_map (fun i => [EvStopCall i; EvStopReturn i (errs i)]) (seq 0 n) ++
    map (fun j => EvGoCallback j (callbackCtx t)) (seq 0 (List.length (cbs app))) ++
    [EvJoined; EvCancel].
Proof.
  intros n r. split.
  - subst r. rewrite (shutdown_run app (with_Shutdown_err errs env) t). cbv zeta.
    change (waitAll (with_Shutdown_err errs env)) with (waitAll env).
    phases app env t.
    destruct (stopAll_same_outcome env errs (value r2) (finish r2)) as (Hv & Hf & Hl).
    fold r3 in Hv, Hf, Hl.
    set (r3' := stopAll (with_Shutdown_err errs env) (value r2) (finish r2)) in *.
    unfold same_outcome. cbn [value finish events fst snd].
    rewrite Hv, Hf. fold r4 r5. repeat split.
    rewrite !logged_app, Hl. reflexivity.
  - subst r. rewrite shutdown_skeleton. cbv zeta. fold n.
    rewrite <- app_assoc. reflexivity.
Qed.

(** ** The drain phase *)

Lemma drainBody_run (env : Env) (i : nat) (s : Server) (t : Z) :
  let d := waitCost s (wg_zero_at env i) (select_first env i) t in
  value (drainBody env i s t) = s /\
  finish (drainBody env i s t) = t + d /\
  unlogged (events (drainBody env i s t)) = [(t, EvWaitCall i); (t + d, EvWaitReturn i)].
Proof.
  intros d. unfold d, waitCost, drainBody.
  rewrite !finish_bind, !events_bind, !value_bind.
  cbn [emit ret value finish events fst snd].
  rewrite waitInflight_run. cbv zeta.
  destruct (wgWait s (wg_zero_at env i) t) as [z|];
    [destruct ((z <? _) || _)|];
    cbn [value finish events fst snd unlogged List.app filter isLog negb];
    rewrite !Zplus_minus; repeat split.
Qed.

Lemma unlogged_app (es es' : list Timed) :
  unlogged (es ++ es') = unlogged es ++ unlogged es'.
Proof. apply filter_app. Qed.

Lemma drain_from (env : Env) (l : list Server) (i : nat) (t : Z) :
  finish (forRange (drainBody env) i l t) = t + total (waitCosts env i l t) /\
  unlogged (events (forRange (drainBody env) i l t)) = drainTimeline env i l t.
Proof.
  revert i t; induction l as [|s l IH]; intros i t.
  - cbn [forRange ret finish events fst snd waitCosts total fold_right drainTimeline].
    split; [lia | reflexivity].
  - destruct (drainBody_run env i s t) as (Hv & Hf & Hu). cbv zeta in Hf, Hu.
    cbn [forRange waitCosts total fold_right drainTimeline].
    rewrite !finish_bind, !events_bind, !unlogged_app.
    cbn [ret finish events fst snd]. rewrite Hf, Hu.
    destruct (IH (S i) (t + waitCost s (wg_zero_at env i) (select_first env i) t))
      as (Hf' & Hu').
    rewrite Hf', Hu'. fold (total (waitCosts env (S i) l
                                   (t + waitCost s (wg_zero_at env i) (select_first env i) t))).
    change (unlogged []) with (@nil Timed). rewrite app_nil_r.
    split; [lia | reflexivity].
Qed.

Lemma waitCosts_bounds (env : Env) (l : list Server) (i : nat) (t : Z) :
  Forall (fun d => 0 <= d <= time.Second * waitTime) (waitCosts env i l t).
Proof.
  revert i t; induction l as [|s l IH]; intros i t; cbn [waitCosts]; constructor.
  - apply waitCost_bounds.
  - apply IH.
Qed.

Lemma length_waitCosts (env : Env) (l : list Server) (i : nat) (t : Z) :
  List.length (waitCosts env i l t) = List.length l.
Proof.
  revert i t; induction l as [|s l IH]; intros i t; cbn [waitCosts List.length]; auto.
Qed.

(** C6, as the code has it: the drain phase calls [waitInflight] on the
    servers one at a time, in the order of [app.servers], on the
    goroutine of [shutdown]; each call is made at the instant the
    previous one returned, each takes between nothing and the drain
    timeout, and the phase takes the sum of the times of its calls.  In
    [shutdown] all these calls come before the first [stop]. *)
Theorem drain_phase_one_by_one
    (env : Env) (l : list Server) (t : Z) (app : App) (t0 : Z) :
  unlogged (events (waitAll env l t)) = drainTimeline env 0 l t /\
  finish (waitAll env l t) - t = total (waitCosts env 0 l t) /\
  List.length (waitCosts env 0 l t) = List.length l /\
  Forall (fun d => 0 <= d <= time.Second * waitTime) (waitCosts env 0 l t) /\
  (exists post,
     skeleton (events (shutdown app env t0)) =
     map EvReject (seq 0 (List.length (servers app))) ++
     flat_map (fun i => [EvWaitCall i; EvWaitReturn i])
              (seq 0 (List.length (servers app))) ++
     flat_map (fun i => [EvStopCall i; EvStopReturn i (Shutdown_err env i)])
              (seq 0 (List.length (servers app))) ++
     post).
Proof.
  destruct (drain_from env l 0 t) as (Hf & Hu). unfold waitAll.
  split; [exact Hu|]. split; [lia|]. split; [apply length_waitCosts|].
  split; [apply waitCosts_bounds|].
  rewrite shutdown_skeleton. cbv zeta. rewrite <- app_assoc.
  eexists. reflexivity.
Qed.

(** ** The supervisor *)

Lemma goStart_finish (l : list Server) (i : nat) (t : Z) :
  finish (forRange (fun i srv => bind (emit (EvGoStart i)) (fun _ => ret srv)) i l t) = t.
Proof.
  revert i t; induction l as [|s l IH]; intros i t; [reflexivity|].
  cbn [forRange]. rewrite !finish_bind. cbn [emit ret finish value fst snd].
  apply IH.
Qed.

Lemma watcher_not_before_spawn (env : Env) (spawned : Z) (pending : list Z) :
  spawned <= fires_at (watcher env spawned pending) <=
  spawned + time.Second * shutdownTimeout.
Proof.
  unfold watcher.
  assert (0 < time.Second * shutdownTimeout) by reflexivity.
  destruct pending as [|t2 pending]; [cbn [fires_at]; lia|].
  destruct (Z.ltb_spec (Z.max spawned t2) (spawned + time.Second * shutdownTimeout));
    cbn [orb]; [cbn [fires_at]; lia|].
  destruct (Z.eqb_spec (Z.max spawned t2) (spawned + time.Second * shutdownTimeout)),
    (watcher_first env); cbn [andb fires_at]; lia.
Qed.

(** The watcher is launched when [shutdown] has returned, and its timer
    starts then. *)
Lemma watcher_spawned_after_shutdown
    (app : App) (env : Env) (t t1 : Z) (pending : list Z) :
  signals env = t1 :: pending ->
  let done := finish (shutdown app env (Z.max t t1)) in
  finish (StartAndServe app env t) = done /\
  forced (StartAndServe app env t) = Some (watcher env done pending) /\
  done <= fires_at (watcher env done pending).
Proof.
  intros Hs done. unfold StartAndServe, forced. rewrite Hs.
  rewrite !finish_bind, !value_bind.
  cbn [sleepUntil emit clock ret value finish fst snd option_map].
  rewrite goStart_finish. fold done.
  repeat split. apply watcher_not_before_spawn.
Qed.

Lemma StartAndServe_run (app : App) (env : Env) (t : Z) :
  let r0 := forRange (fun i srv => bind (emit (EvGoStart i)) (fun _ => ret srv))
                     0 (servers app) t in
  StartAndServe app env t =
  match signals env with
  | [] => (None, finish r0, events r0 ++ [])
  | t1 :: pending =>
      let t' := Z.max (finish r0) t1 in
      let r := shutdown app env t' in
      (Some (value r, watcher env (finish r) pending),
       finish r,
       events r0 ++ [] ++ [(t', EvSignal)] ++ events r ++ [] ++ [(finish r, EvGoWatcher)])
  end.
Proof. unfold StartAndServe. destruct (signals env); reflexivity. Qed.

(** The three timeout fields of [App] are written by [NewApp] and by
    options, and read by nothing: two applications with the same
    servers and the same callbacks run alike. *)
Lemma timeouts_never_read (app app' : App) (env : Env) (t : Z) :
  servers app' = servers app ->
  cbs app' = cbs app ->
  events (StartAndServe app' env t) = events (StartAndServe app env t) /\
  finish (StartAndServe app' env t) = finish (StartAndServe app env t) /\
  forced (StartAndServe app' env t) = forced (StartAndServe app env t).
Proof.
  intros Hs Hc.
  assert (Hsh : forall t', events (shutdown app' env t') = events (shutdown app env t') /\
                           finish (shutdown app' env t') = finish (shutdown app env t')).
  { intros t'. rewrite !shutdown_run. cbv zeta.
    unfold execCallBack. rewrite Hs, Hc. split; reflexivity. }
  unfold forced. rewrite !StartAndServe_run. cbv zeta. rewrite Hs.
  destruct (signals env) as [|t1 pending]; [repeat split|].
  set (t' := Z.max _ t1).
  destruct (Hsh t') as [He Hf].
  cbn [events finish value fst snd option_map]. rewrite He, Hf. repeat split.
Qed.

End Coordinator.

(** * The claims on concrete runs *)

Ltac conjuncts := repeat match goal with |- _ /\ _ => split end.

(** Closes a goal [In x l], or an equation, between computed closed terms. *)
Ltac by_run :=
  vm_compute;
  solve [reflexivity | repeat (first [left; reflexivity | right])].

(** C1, where the code departs from it: a server with one route gets a
    request while the flag is off.  The request is inside the
    multiplexer, not answered yet, and the counter of the server is 0:
    entering the gate did not increment it.  The counter moves in
    [Handle] only, that is when a route is registered. *)
Theorem request_in_flight_not_counted :
  exists w : tWorld,
    exec busy (boot "api" ":8080") = Some w /\
    reject (mux (server w)) = false /\
    inflight w = [([("/", "hello")]%string, [], "/"%string)] /\
    answered w = [] /\
    wg (server w) = 0.
Proof. eexists. conjuncts; vm_compute; reflexivity. Qed.

(** C2, where the code departs from it: the first signal comes at 0 and
    a second one a second later, while [shutdown] is busy for six
    seconds (a [Shutdown] of five and the release of one).  The watcher
    goroutine is launched at 6s, after the last event of [shutdown], and
    the forced exit happens at 6s, not at 1s.  Without a second signal
    the timer of 30s starts at 6s and fires at 36s, not at 30s. *)
Theorem watcher_launched_after_shutdown_returns :
  let r := StartAndServe plainApp (slowStop [0; seconds 1]) 0 in
  finish (shutdown plainApp (slowStop [0; seconds 1]) 0) = seconds 6 /\
  (exists es, events r = es ++ [(seconds 6, EvCancel); (seconds 6, EvGoWatcher)]) /\
  forced r = Some {| fires_at := seconds 6; last_line := "主动强制退出"; exit_code := 1 |} /\
  forced (StartAndServe plainApp (slowStop [0]) 0) =
    Some {| fires_at := seconds 36; last_line := "退出超时，强制退出"; exit_code := 1 |}.
Proof.
  cbv zeta. split; [reflexivity|]. split; [|split; reflexivity].
  eexists (_ :: _ :: _ :: _ :: _ :: _ :: _ :: _ :: _ :: _ :: _ :: _ :: _ :: _ :: _ :: _ :: _ :: nil).
  vm_compute. reflexivity.
Qed.

(** C4, where the code departs from it: an option sets the three
    timeout fields to 60s, 1s and 10s.  The run is the one of the
    application built without that option: the callback still gets a
    deadline of 3s, the watcher's timer is still 30s, and a wait on a
    busy WaitGroup still gives up after 10s.  Left alone, the fields
    hold 30, 10 and 3 nanoseconds. *)
Theorem configured_timeouts_not_used :
  (app_shutdownTimeout tunedApp, app_waitTime tunedApp, app_cbTimeout tunedApp) =
    (seconds 60, seconds 1, seconds 10) /\
  (app_shutdownTimeout plainApp, app_waitTime plainApp, app_cbTimeout plainApp) =
    (30 * time.Nanosecond, 10 * time.Nanosecond, 3 * time.Nanosecond) /\
  events (StartAndServe tunedApp calm 0) = events (StartAndServe plainApp calm 0) /\
  skeleton (events (shutdown tunedApp calm 0)) =
    [EvReject 0; EvWaitCall 0; EvWaitReturn 0; EvStopCall 0; EvStopReturn 0 None;
     EvGoCallback 0 {| deadline := Some (seconds 3) |}; EvJoined; EvCancel] /\
  finish (shutdown tunedApp calm 0) = seconds 4 /\
  forced (StartAndServe tunedApp calm 0) =
    Some {| fires_at := seconds 34; last_line := "退出超时，强制退出"; exit_code := 1 |} /\
  wg (midHandle api) = 1 /\
  events (waitAll calm (servers tunedBusyApp) 0) =
    [(0, EvWaitCall 0); (seconds 10, EvLog "api请求处理超时"); (seconds 10, EvWaitReturn 0)].
Proof. conjuncts; vm_compute; reflexivity. Qed.

(** C5, where the code departs from it: the context is made when
    [shutdown] is entered, at 0, so its deadline is 3s.  A [Shutdown]
    that takes five seconds comes first, and the callback is launched at
    5s with that same deadline, two seconds after it has passed; a
    callback that works until its deadline gets no time at all. *)
Theorem callback_deadline_counted_from_entry :
  let es := events (shutdown plainApp (slowStop [0]) 0) in
  In (seconds 5, EvStopReturn 0 None) es /\
  In (seconds 5, EvGoCallback 0 {| deadline := Some (seconds 3) |}) es /\
  In (seconds 5, EvJoined) es /\
  untilDeadline {| deadline := Some (seconds 8) |} (seconds 5) = seconds 3.
Proof. cbv zeta. conjuncts; by_run. Qed.

(** C6 as stated fails: the WaitGroups of two servers are busy until 6s
    and 15s.  Waited for together from 0, the first would take 6s and
    the second would give up at 10s, 10s at most.  The drain loop takes
    15s: the second wait only starts at 6s. *)
Lemma drain_phase_longer_than_longest_wait :
  let l := [midHandle api; midHandle admin] in
  aloneCosts lateHandles 0 l 0 = [seconds 6; seconds 10] /\
  finish (waitAll lateHandles l 0) - 0 = seconds 15 /\
  finish (waitAll lateHandles l 0) - 0 <> longest (aloneCosts lateHandles 0 l 0).
Proof. cbv zeta. conjuncts; vm_compute; [reflexivity | reflexivity | discriminate]. Qed.

(** C7, where the code departs from it: the only server is handling a
    request when [shutdown] is entered at 0.  The request is inside the
    multiplexer and stays there, yet the WaitGroup is at zero, so
    [waitInflight] does not block: it returns at 0 with the line of a
    finished drain, long before the drain timeout, and [stop] is called
    at 0 as well.  The rest of the claim holds: no error is reported,
    one line is logged, and [stop] follows. *)
Theorem drain_wait_ignores_request_in_flight :
  inflight (world_of busy) = [([("/", "hello")]%string, [], "/"%string)] /\
  answered (world_of busy) = [] /\
  servers busyApp = [server (world_of busy)] /\
  wg (server (world_of busy)) = 0 /\
  waitInflight (server (world_of busy)) None true 0 =
    (tt, 0, [(0, EvLog "api 请求已处理完")]) /\
  finish (waitAll calm (servers busyApp) 0) = 0 /\
  In (0, EvWaitReturn 0) (events (shutdown busyApp calm 0)) /\
  In (0, EvStopCall 0) (events (shutdown busyApp calm 0)).
Proof. conjuncts; by_run. Qed.

(** C8 as stated fails: the only server's [stop] returns an error, and
    the log of [shutdown] is the log of the run without the error, line
    for line; [shutdown] returns nothing that could carry it. *)
Lemma stop_error_leaves_no_trace :
  Shutdown_err failingStop 0 = Some "listener gone"%string /\
  In (EvStopReturn 0 (Some "listener gone"%string))
     (skeleton (events (shutdown plainApp failingStop 0))) /\
  logged (events (shutdown plainApp failingStop 0)) =
    ["开始关闭应用，停止接收新请求"; "等待正在执行请求完结"; "api 请求已处理完";
     "开始关闭服务器"; "服务器api关闭中"; "开始执行自定义回调";
     "开始释放资源"; "应用关闭"]%string /\
  logged (events (shutdown plainApp failingStop 0)) =
    logged (events (shutdown plainApp calm 0)) /\
  servers (value (shutdown plainApp failingStop 0)) =
    servers (value (shutdown plainApp calm 0)).
Proof. conjuncts; by_run. Qed.

(** ** Instances of the general statements *)

Lemma gate_forwards_until_rejected_witness :
  @ServeHTTP tableHTTP (mux (server (world_of routed))) [] "/"%string =
    @Delegated tableHTTP [("/", "hello")]%string [] "/"%string /\
  @ServeHTTP tableHTTP (mux (server (world_of rejected))) [] "/"%string =
    @Answered tableHTTP [WriteHeader 503; Write "服务已关闭"].
Proof.
  destruct (@gate_forwards_until_rejected tableHTTP
              (world_of routed) (world_of rejected) [serveRoot] [] "/"%string)
    as [Hopen Hshut].
  split.
  - destruct (Hopen eq_refl) as [H _]. exact H.
  - destruct (Hshut eq_refl) as [H _]. exact H.
Defined.

Lemma waitgroup_idle_outside_Handle_witness :
  inflight (world_of busy) = [([("/", "hello")]%string, [], "/"%string)] /\
  wg (server (world_of busy)) = 0 /\
  finish (waitInflight (server (world_of busy)) None true 0) = 0.
Proof.
  destruct (@waitgroup_idle_outside_Handle tableHTTP "api" ":8080" busy (world_of busy)
              None true 0 eq_refl eq_refl) as (H0 & _ & Hf & _).
  split; [reflexivity|]. split; [exact H0 | exact Hf].
Defined.

Lemma shutdown_phase_barriers_witness :
  In (EvWaitReturn 0) [EvReject 0; EvWaitCall 0; EvWaitReturn 0] /\
  In (EvStopReturn 0 None)
     [EvReject 0; EvWaitCall 0; EvWaitReturn 0; EvStopCall 0; EvStopReturn 0 None].
Proof.
  destruct (@shutdown_phase_barriers tableHTTP plainApp calm 0) as (_ & _ & Hb).
  split.
  - destruct (Hb [EvReject 0; EvWaitCall 0; EvWaitReturn 0]
                 (EvStopCall 0)
                 [EvStopReturn 0 None;
                  EvGoCallback 0 (callbackCtx 0); EvJoined; EvCancel] eq_refl)
      as (_ & H3 & _).
    apply (H3 eq_refl 0%nat). apply Nat.lt_0_1.
  - destruct (Hb [EvReject 0; EvWaitCall 0; EvWaitReturn 0; EvStopCall 0; EvStopReturn 0 None]
                 (EvGoCallback 0 (callbackCtx 0))
                 [EvJoined; EvCancel] eq_refl)
      as (_ & _ & H4).
    apply (H4 eq_refl 0%nat). apply Nat.lt_0_1.
Defined.

Lemma waitInflight_zero_or_timeout_witness :
  logged (events (waitInflight (midHandle api) (Some (seconds 6)) true 0)) =
    ["api 请求已处理完"%string] /\
  logged (events (waitInflight (midHandle api) (Some (seconds 15)) true 0)) =
    ["api请求处理超时"%string] /\
  logged (events (waitInflight (midHandle api) None true 0)) =
    ["api请求处理超时"%string] /\
  In (EvStopCall 0) (skeleton (events (shutdown plainApp calm 0))).
Proof.
  split; [|split; [|split]].
  - destruct (@waitInflight_zero_or_timeout tableHTTP (midHandle api) (Some (seconds 6))
                true 0 plainApp calm 0) as (_ & _ & _ & _ & H & _).
    apply (H (seconds 6)); reflexivity.
  - destruct (@waitInflight_zero_or_timeout tableHTTP (midHandle api) (Some (seconds 15))
                true 0 plainApp calm 0) as (_ & _ & _ & _ & _ & H & _).
    apply (H (seconds 15)); reflexivity.
  - destruct (@waitInflight_zero_or_timeout tableHTTP (midHandle api) None
                true 0 plainApp calm 0) as (_ & _ & _ & _ & _ & _ & H & _).
    apply H; reflexivity.
  - destruct (@waitInflight_zero_or_timeout tableHTTP (midHandle api) None
                true 0 plainApp calm 0) as (_ & _ & _ & _ & _ & _ & _ & H).
    apply (H 0%nat). apply Nat.lt_0_1.
Defined.

(** * Further properties of the package *)

Section GateMore.
Context `{http : NetHTTP}.

(** [Handle] returns when the registration succeeds, with the new
    multiplexer and nothing else changed; it panics when the registration
    panics, and then the server is as it was before the call. *)
Theorem Handle_outcome (s : Server) (pattern : string) (handler : Handler) :
  0 <= wg s ->
  Handle s pattern handler =
  match ServeMux_Handle pattern handler (embedded (mux s)) with
  | Some e => Returned Server (set_mux (set_embedded e (mux s)) s)
  | None => Panicked Server s
  end.
Proof.
  intros Hc. unfold Handle.
  destruct (Add_Done (wg s) Hc) as [Ha Hd]. rewrite Ha.
  destruct s as [n a m c]. cbn [wg mux set_wg] in *.
  destruct (ServeMux_Handle pattern handler (embedded m));
    cbn [wg mux set_wg set_mux]; rewrite Hd; reflexivity.
Qed.

(** Steps other than the end of a request only add to the requests that
    are inside the multiplexer. *)
Lemma step_keeps_inflight (l : Label) (w w' : World) :
  isFinish l = false ->
  step l w = Some w' ->
  exists more, inflight w' = inflight w ++ more.
Proof.
  destruct l as [p h|k|k|r|k|]; simpl; intros Hl Hs; try discriminate.
  - destruct (WaitGroup.Add 1 (wg (server w))); inversion Hs; subst.
    exists []. symmetry; apply app_nil_r.
  - destruct (nth_error (calls w) k) as [[p h [|b]]|]; try discriminate.
    destruct (ServeMux_Handle p h (embedded (mux (server w))));
      inversion Hs; subst; exists []; symmetry; apply app_nil_r.
  - destruct (nth_error (calls w) k) as [[p h [|b]]|]; try discriminate.
    destruct (WaitGroup.Done (wg (server w))); inversion Hs; subst.
    exists []. symmetry; apply app_nil_r.
  - destruct (ServeHTTP (mux (server w)) [] r) as [resp|m wr r'];
      inversion Hs; subst; simpl; eexists; [symmetry; apply app_nil_r | reflexivity].
  - inversion Hs; subst. exists []. symmetry; apply app_nil_r.
Qed.

Lemma exec_keeps_inflight (ls : list Label) (w w' : World) :
  forallb (fun l => negb (isFinish l)) ls = true ->
  exec ls w = Some w' ->
  exists more, inflight w' = inflight w ++ more.
Proof.
  revert w; induction ls as [|l ls IH]; simpl; intros w Hl He.
  - inversion He; subst. exists []. symmetry; apply app_nil_r.
  - apply andb_prop in Hl as [Hl Hls]. apply negb_true_iff in Hl.
    destruct (step l w) as [w1|] eqn:E; [|discriminate].
    destruct (step_keeps_inflight _ _ _ Hl E) as [m1 H1].
    destruct (IH _ Hls He) as [m2 H2].
    exists (m1 ++ m2). rewrite H2, H1, app_assoc. reflexivity.
Qed.

(** A request that is inside the multiplexer when [rejectReq] runs is not
    cut short: whatever happens next short of a request ending, when it
    ends it is answered by the multiplexer it entered, with the writer
    and request it entered with. *)
Theorem inflight_outlives_reject
    (w w1 w2 : World) (ls : list Label) (k : nat)
    (m : ServeMux) (wr : ResponseWriter) (r : Request) :
  nth_error (inflight w) k = Some (m, wr, r) ->
  forallb (fun l => negb (isFinish l)) ls = true ->
  exec (LRejectReq :: ls) w = Some w1 ->
  step (LFinish k) w1 = Some w2 ->
  reject (mux (server w2)) = true /\
  answered w2 = answered w1 ++ [(r, ServeMux_ServeHTTP m wr r)].
Proof.
  intros Hk Hls He Hs.
  assert (Hr : reject (mux (server w1)) = true).
  { simpl in He. eapply exec_keeps_reject; [exact He | reflexivity]. }
  destruct (exec_keeps_inflight (LRejectReq :: ls) w w1) as [more Hm]; auto.
  simpl in Hs. rewrite Hm in Hs.
  rewrite nth_error_app1 in Hs by (apply nth_error_Some; congruence).
  rewrite Hk in Hs. inversion Hs; subst. split; [exact Hr | reflexivity].
Qed.

End GateMore.

Section CoordinatorMore.
Context `{http : NetHTTP}.

(** ** Construction *)

Lemma options_accumulate (groups : list (list ShutdownCallback)) (app0 : App) :
  let app := fold_left (fun ap opt => opt ap) (map WithShutdownCallbacks groups) app0 in
  cbs app = cbs app0 ++ List.concat groups /\
  servers app = servers app0 /\
  app_shutdownTimeout app = app_shutdownTimeout app0 /\
  app_waitTime app = app_waitTime app0 /\
  app_cbTimeout app = app_cbTimeout app0.
Proof.
  revert app0; induction groups as [|g groups IH]; intros app0; cbn [map fold_left List.concat].
  - rewrite app_nil_r. repeat split.
  - destruct (IH (WithShutdownCallbacks g app0)) as (Hc & Hs & H1 & H2 & H3).
    cbv zeta. rewrite Hc, Hs, H1, H2, H3. cbn [WithShutdownCallbacks set_cbs cbs servers
      app_shutdownTimeout app_waitTime app_cbTimeout].
    rewrite app_assoc. repeat split.
Qed.

(** [NewApp] applies its options from left to right: with callback
    options only, the application has the callbacks of all the options in
    the order given, the servers it was given, and 30, 10 and 3
    (nanoseconds) in its timeout fields. *)
Theorem NewApp_collects_callbacks
    (srvs : list Server) (groups : list (list ShutdownCallback)) :
  let app := NewApp srvs (map WithShutdownCallbacks groups) in
  cbs app = List.concat groups /\
  servers app = srvs /\
  app_shutdownTimeout app = 30 /\ app_waitTime app = 10 /\ app_cbTimeout app = 3.
Proof.
  unfold NewApp.
  destruct (options_accumulate groups
              {| servers := srvs; app_shutdownTimeout := shutdownTimeout;
                 app_waitTime := waitTime; app_cbTimeout := cbTimeout; cbs := [] |})
    as (Hc & Hs & H1 & H2 & H3).
  cbv zeta in *. rewrite Hc, Hs, H1, H2, H3. repeat split.
Qed.

(** ** What [shutdown] leaves behind *)

Ltac name_phases app env t :=
  rewrite (shutdown_run app env t); cbv zeta;
  set (r1 := rejectAll (servers app) t);
  set (r2 := waitAll env (value r1) (finish r1));
  set (r3 := stopAll env (value r2) (finish r2));
  set (r4 := execCallBack app (callbackCtx t) (finish r3));
  set (r5 := close (finish r4)).

(** [shutdown] sets the flag of every server and changes nothing else:
    names, addresses, routes and counters of the servers, the callbacks
    and the timeout fields are as before. *)
Theorem shutdown_sets_every_flag (app : App) (env : Env) (t : Z) :
  let app' := value (shutdown app env t) in
  app' = set_servers (map rejectReq (servers app)) app /\
  Forall (fun s => reject (mux s) = true) (servers app') /\
  map name (servers app') = map name (servers app) /\
  map addr (servers app') = map addr (servers app) /\
  map wg (servers app') = map wg (servers app) /\
  map (fun s => embedded (mux s)) (servers app') =
    map (fun s => embedded (mux s)) (servers app).
Proof.
  assert (E : value (shutdown app env t) = set_servers (map rejectReq (servers app)) app).
  { name_phases app env t. cbn [value fst]. unfold r3, r2, r1.
    rewrite stopAll_value, waitAll_value, rejectAll_value. reflexivity. }
  cbv zeta. rewrite E. cbn [servers set_servers]. split; [reflexivity|].
  split; [apply Forall_forall; intros s Hs;
          apply in_map_iff in Hs as (s0 & <- & _); reflexivity|].
  rewrite !map_map. repeat split.
Qed.

(** ** Durations *)

Section Range2.
Context {A : Type} (body : nat -> A -> M A).

Lemma forRange_finish (d : nat -> time.Duration) :
  (forall i x t, finish (body i x t) = t + d i) ->
  forall xs i t,
    finish (forRange body i xs t) = t + total (map d (seq i (List.length xs))).
Proof.
  intros Hb; induction xs as [|x xs IH]; intros i t.
  - cbn [forRange ret finish fst snd List.length seq map total fold_right]. lia.
  - cbn [forRange]. rewrite !finish_bind. cbn [ret finish fst snd].
    rewrite IH, Hb. cbn [List.length seq map total fold_right].
    fold (total (map d (seq (S i) (List.length xs)))). lia.
Qed.

Lemma forRange_instant (e : nat -> Event) :
  (forall i x t, body i x t = (x, t, [(t, e i)])) ->
  forall xs i t,
    forRange body i xs t = (xs, t, map (fun j => (t, e j)) (seq i (List.length xs))).
Proof.
  intros Hb; induction xs as [|x xs IH]; intros i t; [reflexivity|].
  cbn [forRange]. unfold bind. rewrite Hb. cbn [value finish events fst snd].
  rewrite IH. cbn [value finish events fst snd ret List.length seq map List.app].
  rewrite app_nil_r. reflexivity.
Qed.

End Range2.

Lemma longest_bounds (ds : list time.Duration) :
  0 <= longest ds /\ Forall (fun d => d <= longest ds) ds.
Proof.
  induction ds as [|d ds [H0 Hall]]; cbn [longest fold_right].
  - split; [lia | constructor].
  - fold (longest ds). split; [lia|]. constructor; [lia|].
    eapply Forall_impl; [|exact Hall]. simpl; intros; lia.
Qed.

Lemma execCallBack_run (app : App) (ctx : Ctx) (t : Z) :
  execCallBack app ctx t =
  (tt,
   t + longest (map (fun cb => cb ctx t) (cbs app)),
   map (fun j => (t, EvGoCallback j ctx)) (seq 0 (List.length (cbs app))) ++
   [(t + longest (map (fun cb => cb ctx t) (cbs app)), EvJoined)]).
Proof.
  unfold execCallBack, bind.
  rewrite (forRange_instant _ (fun j => EvGoCallback j ctx)) by reflexivity.
  cbn [clock elapse emit value finish events fst snd List.app].
  destruct (longest_bounds (map (fun cb => cb ctx t) (cbs app))) as [H0 _].
  rewrite (Z.max_r 0 _ H0). reflexivity.
Qed.

(** [execCallBack] hands the same context to every callback, launches
    them all at once in the order of registration, and returns when the
    slowest has returned, however late that is for the deadline; with no
    callback it returns at once. *)
Theorem execCallBack_waits_for_slowest (app : App) (ctx : Ctx) (t : Z) :
  let r := execCallBack app ctx t in
  events r =
    map (fun j => (t, EvGoCallback j ctx)) (seq 0 (List.length (cbs app))) ++
    [(finish r, EvJoined)] /\
  finish r = t + longest (map (fun cb => cb ctx t) (cbs app)) /\
  t <= finish r /\
  (forall cb, In cb (cbs app) -> t + cb ctx t <= finish r) /\
  (cbs app = [] -> finish r = t).
Proof.
  cbv zeta. rewrite execCallBack_run. cbn [events finish fst snd].
  destruct (longest_bounds (map (fun cb => cb ctx t) (cbs app))) as [H0 Hall].
  split; [reflexivity|]. split; [reflexivity|]. split; [lia|]. split.
  - intros cb Hin. rewrite Forall_forall in Hall.
    specialize (Hall (cb ctx t) (in_map (fun cb => cb ctx t) _ _ Hin)). lia.
  - intros ->. cbn [map longest fold_right]. lia.
Qed.

Lemma waitCost_rejectReq (s : Server) (zero_at : option Z) (first : bool) (t : Z) :
  waitCost (rejectReq s) zero_at first t = waitCost s zero_at first t.
Proof. unfold waitCost. rewrite !waitInflight_finish. reflexivity. Qed.

Lemma waitCosts_rejectReq (env : Env) (l : list Server) (i : nat) (t : Z) :
  waitCosts env i (map rejectReq l) t = waitCosts env i l t.
Proof.
  revert i t; induction l as [|s l IH]; intros i t; [reflexivity|].
  cbn [map waitCosts]. rewrite waitCost_rejectReq, IH. reflexivity.
Qed.

Lemma total_waitCosts_bounds (env : Env) (l : list Server) (i : nat) (t : Z) :
  0 <= total (waitCosts env i l t) <=
  Z.of_nat (List.length l) * (time.Second * waitTime).
Proof.
  revert i t; induction l as [|s l IH]; intros i t;
    cbn [waitCosts total fold_right List.length]; [lia|].
  pose proof (waitCost_bounds s (wg_zero_at env i) (select_first env i) t) as Hb.
  specialize (IH (S i) (t + waitCost s (wg_zero_at env i) (select_first env i) t)).
  unfold total in IH. lia.
Qed.

Lemma total_stops_nonneg (env : Env) (n i : nat) :
  0 <= total (map (fun i => Z.max 0 (Shutdown_takes env i)) (seq i n)).
Proof.
  revert i; induction n as [|n IH]; intros i; cbn [seq map total fold_right]; [lia|].
  specialize (IH (S i)). unfold total in IH. lia.
Qed.

Lemma forRange_keeps_clock {A} (body : nat -> A -> M A) :
  (forall i x t, finish (body i x t) = t) ->
  forall xs i t, finish (forRange body i xs t) = t.
Proof.
  intros Hb; induction xs as [|x xs IH]; intros i t; [reflexivity|].
  cbn [forRange]. rewrite !finish_bind. cbn [ret finish fst snd].
  rewrite IH, Hb. reflexivity.
Qed.

Lemma rejectAll_finish (l : list Server) (t : Z) : finish (rejectAll l t) = t.
Proof. unfold rejectAll. apply forRange_keeps_clock. reflexivity. Qed.

Lemma stopAll_finish (env : Env) (l : list Server) (t : Z) :
  finish (stopAll env l t) =
  t + total (map (fun i => Z.max 0 (Shutdown_takes env i)) (seq 0 (List.length l))).
Proof. unfold stopAll. apply forRange_finish. reflexivity. Qed.

(** The time [shutdown] takes is the sum of the drain waits, of the
    servers' [Shutdown] calls, of the slowest callback and of the second
    [close] sleeps; so it never takes less than a second. *)
Theorem shutdown_duration (app : App) (env : Env) (t : Z) :
  let n := List.length (servers app) in
  let drain := total (waitCosts env 0 (servers app) t) in
  let stops := total (map (fun i => Z.max 0 (Shutdown_takes env i)) (seq 0 n)) in
  let launch := t + drain + stops in
  let slowest := longest (map (fun cb => cb (callbackCtx t) launch) (cbs app)) in
  finish (shutdown app env t) = launch + slowest + time.Second /\
  0 <= drain <= Z.of_nat n * (time.Second * waitTime) /\
  0 <= stops /\
  t + time.Second <= finish (shutdown app env t).
Proof.
  intros n drain stops launch slowest.
  assert (Hd : finish (waitAll env (map rejectReq (servers app)) t) = t + drain).
  { destruct (drain_from env (map rejectReq (servers app)) 0 t) as [Hf _].
    unfold waitAll. rewrite Hf, waitCosts_rejectReq. reflexivity. }
  pose proof (total_waitCosts_bounds env (servers app) 0 t) as Hdrain.
  pose proof (total_stops_nonneg env n 0) as Hstops.
  fold drain n in Hdrain. fold stops in Hstops.
  assert (Hfin : finish (shutdown app env t) = launch + slowest + time.Second).
  { name_phases app env t. cbn [finish fst snd].
    unfold r5, close. rewrite !finish_bind. cbn [elapse log emit finish value fst snd].
    unfold r4. rewrite execCallBack_run. cbn [finish fst snd].
    unfold r3. rewrite stopAll_finish. unfold r2, r1.
    rewrite waitAll_value, rejectAll_value, length_map, rejectAll_finish, Hd.
    fold n stops launch slowest. reflexivity. }
  split; [exact Hfin|]. split; [exact Hdrain|]. split; [exact Hstops|].
  rewrite Hfin. subst launch slowest.
  pose proof (longest_bounds (map (fun cb => cb (callbackCtx t) (t + drain + stops))
                                  (cbs app))) as [H0 _].
  assert (0 < time.Second) by reflexivity. lia.
Qed.

(** ** The log *)

Lemma forRange_logged {A} (body : nat -> A -> M A) (f : A -> list string) :
  (forall i x t, logged (events (body i x t)) = f x) ->
  forall xs i t, logged (events (forRange body i xs t)) = flat_map f xs.
Proof.
  intros Hb; induction xs as [|x xs IH]; intros i t; [reflexivity|].
  cbn [forRange]. rewrite !events_bind, !logged_app. cbn [ret events snd].
  rewrite Hb, IH. cbn [flat_map logged]. rewrite app_nil_r. reflexivity.
Qed.

Lemma waitInflight_logged (s : Server) (zero_at : option Z) (first : bool) (t : Z) :
  logged (events (waitInflight s zero_at first t)) = [drainedLine s] \/
  logged (events (waitInflight s zero_at first t)) = [timeoutLine s].
Proof.
  rewrite waitInflight_run. cbv zeta.
  destruct (wgWait s zero_at t) as [z|]; [|right; reflexivity].
  destruct ((z <? _) || _); [left | right]; reflexivity.
Qed.

Lemma waitAll_logged (env : Env) (l : list Server) (i : nat) (t : Z) :
  Forall2 (fun s line => line = drainedLine s \/ line = timeoutLine s)
          l (logged (events (forRange (drainBody env) i l t))).
Proof.
  revert i t; induction l as [|s l IH]; intros i t; [constructor|].
  cbn [forRange]. rewrite !events_bind, !logged_app. cbn [ret events snd logged flat_map].
  rewrite app_nil_r. unfold drainBody at 1.
  rewrite !events_bind, !logged_app.
  cbn [emit ret events value finish fst snd logged flat_map List.app].
  rewrite app_nil_r.
  destruct (waitInflight_logged s (wg_zero_at env i) (select_first env i) t) as [E|E];
    rewrite E; cbn [List.app]; constructor; auto.
Qed.

Lemma Forall2_map_left {A B C} (P : B -> C -> Prop) (f : A -> B) (l : list A) (x : list C) :
  Forall2 P (map f l) x -> Forall2 (fun a => P (f a)) l x.
Proof.
  revert x; induction l as [|a l IH]; intros x H; inversion H; subst; constructor; auto.
Qed.

(** The log of [shutdown]: the headline of each phase, one line per
    server in the drain phase telling how its wait ended, one line per
    server in the stop phase, both in the order of the servers, and the
    closing line; callbacks and errors add nothing. *)
Theorem shutdown_log (app : App) (env : Env) (t : Z) :
  exists waits,
    logged (events (shutdown app env t)) =
      ["开始关闭应用，停止接收新请求"; "等待正在执行请求完结"]%string ++ waits ++
      ["开始关闭服务器"%string] ++ map stopLine (servers app) ++
      ["开始执行自定义回调"; "开始释放资源"; "应用关闭"]%string /\
    Forall2 (fun s line => line = drainedLine s \/ line = timeoutLine s)
            (servers app) waits.
Proof.
  name_phases app env t. exists (logged (events r2)). split.
  - unfold events at 1. cbn [snd]. rewrite !logged_app.
    assert (E1 : logged (events r1) = []).
    { unfold r1, rejectAll.
      rewrite (forRange_logged _ (fun _ => [])) by reflexivity.
      induction (servers app); auto. }
    assert (E3 : logged (events r3) = map stopLine (servers app)).
    { unfold r3, stopAll.
      rewrite (forRange_logged _ (fun s => [stopLine s])) by reflexivity.
      unfold r2, r1. rewrite waitAll_value, rejectAll_value, flat_map_single, map_map.
      reflexivity. }
    assert (E4 : logged (events r4) = []).
    { unfold r4. rewrite execCallBack_run. unfold events. cbn [snd].
      rewrite logged_app. cbn [logged flat_map snd]. rewrite app_nil_r.
      generalize 0%nat. induction (List.length (cbs app)) as [|n IH]; intros i;
        [reflexivity | apply (IH (S i))]. }
    rewrite E1, E3, E4. unfold r5 at 1. rewrite close_logged.
    rewrite !logged_cons. cbn [logged flat_map].
    repeat (progress (cbn [List.app]; rewrite <- ?app_assoc)). reflexivity.
  - unfold r2, r1, waitAll. rewrite rejectAll_value.
    apply (Forall2_map_left
             (fun s line => line = drainedLine s \/ line = timeoutLine s) rejectReq).
    apply waitAll_logged.
Qed.

(** ** The supervisor *)

(** The watcher goroutine always ends the process with status 1, not
    before it is launched and not later than thirty seconds after; a
    signal that is already waiting ends it at once, and without a signal,
    or with one that comes after thirty seconds, the timer ends it. *)
Theorem watcher_exit (env : Env) (spawned : Z) (pending : list Z) :
  let w := watcher env spawned pending in
  let timer := spawned + time.Second * shutdownTimeout in
  exit_code w = 1 /\
  spawned <= fires_at w <= timer /\
  (pending = [] -> fires_at w = timer /\ last_line w = "退出超时，强制退出"%string) /\
  (forall t2 rest, pending = t2 :: rest -> t2 <= spawned ->
     fires_at w = spawned /\ last_line w = "主动强制退出"%string) /\
  (forall t2 rest, pending = t2 :: rest -> spawned <= t2 < timer ->
     fires_at w = t2 /\ last_line w = "主动强制退出"%string) /\
  (forall t2 rest, pending = t2 :: rest -> timer < t2 ->
     fires_at w = timer /\ last_line w = "退出超时，强制退出"%string).
Proof.
  intros w timer. subst w.
  assert (Ht : 0 < time.Second * shutdownTimeout) by reflexivity.
  split.
  { unfold watcher. destruct pending as [|t2 rest]; [reflexivity|].
    destruct ((_ <? _) || _); reflexivity. }
  split; [apply watcher_not_before_spawn|].
  split; [intros ->; split; reflexivity|].
  split; [|split].
  - intros t2 rest -> H. unfold watcher; fold timer.
    rewrite (Z.max_l spawned t2) by lia.
    rewrite (proj2 (Z.ltb_lt spawned timer)) by (unfold timer; lia).
    split; reflexivity.
  - intros t2 rest -> H. unfold watcher; fold timer.
    rewrite (Z.max_r spawned t2) by lia.
    rewrite (proj2 (Z.ltb_lt t2 timer)) by lia.
    split; reflexivity.
  - intros t2 rest -> H. unfold watcher; fold timer.
    rewrite (Z.max_r spawned t2) by (unfold timer in H; lia).
    rewrite (proj2 (Z.ltb_ge t2 timer)) by lia.
    rewrite (proj2 (Z.eqb_neq t2 timer)) by lia.
    split; reflexivity.
Qed.

Lemma goStart_run (l : list Server) (t : Z) :
  forRange (fun i srv => bind (emit (EvGoStart i)) (fun _ => ret srv)) 0 l t =
  (l, t, map (fun i => (t, EvGoStart i)) (seq 0 (List.length l))).
Proof. apply (forRange_instant _ EvGoStart). reflexivity. Qed.

(** Without a signal [StartAndServe] launches every server, in order,
    and nothing more: no server is told to reject, nothing is logged, no
    watcher is launched, and the call does not return. *)
Theorem StartAndServe_without_signal (app : App) (env : Env) (t : Z) :
  signals env = [] ->
  value (StartAndServe app env t) = None /\
  events (StartAndServe app env t) =
    map (fun i => (t, EvGoStart i)) (seq 0 (List.length (servers app))).
Proof.
  intros Hs. rewrite StartAndServe_run. cbv zeta. rewrite Hs, goStart_run.
  cbn [value events fst snd]. rewrite app_nil_r. split; reflexivity.
Qed.

(** On the first signal [StartAndServe] runs [shutdown] once, starting
    when the signal is received, and launches the watcher when it has
    returned; the signals that follow do not start it again, they only
    reach the watcher. *)
Theorem StartAndServe_on_first_signal
    (app : App) (env : Env) (t t1 : Z) (pending : list Z) :
  signals env = t1 :: pending ->
  let start := Z.max t t1 in
  let r := shutdown app env start in
  value (StartAndServe app env t) = Some (value r, watcher env (finish r) pending) /\
  finish (StartAndServe app env t) = finish r /\
  events (StartAndServe app env t) =
    map (fun i => (t, EvGoStart i)) (seq 0 (List.length (servers app))) ++
    [(start, EvSignal)] ++ events r ++ [(finish r, EvGoWatcher)].
Proof.
  intros Hs start r. rewrite StartAndServe_run. cbv zeta. rewrite Hs, goStart_run.
  cbn [value finish events fst snd]. fold start r.
  cbn [List.app]. repeat split.
Qed.

End CoordinatorMore.

(** * Properties of package [annotation] *)

Section AnnotationFacts.
Import annotation.

Lemma length_append (a b : string) :
  String.length (a ++ b) = (String.length a + String.length b)%nat.
Proof. induction a as [|c a IH]; simpl; congruence. Qed.

Lemma append_empty (a : string) : (a ++ "")%string = a.
Proof. induction a as [|c a IH]; simpl; congruence. Qed.

Lemma substring_front (a b : string) :
  substring 0 (String.length a) (a ++ b) = a.
Proof.
  induction a as [|c a IH]; simpl.
  - destruct b; reflexivity.
  - rewrite IH. reflexivity.
Qed.

Lemma substring_middle (pre mid post : string) :
  substring (String.length pre) (String.length mid) (pre ++ mid ++ post) = mid.
Proof.
  induction pre as [|c pre IH]; simpl.
  - apply substring_front.
  - exact IH.
Qed.

Lemma slice_middle (pre mid post : string) :
  slice (pre ++ mid ++ post) (len pre) (len pre + len mid) = Some mid.
Proof.
  unfold slice, len. rewrite !length_append.
  destruct (Z.leb_spec 0 (Z.of_nat (String.length pre))); [|lia].
  destruct (Z.leb_spec (Z.of_nat (String.length pre))
              (Z.of_nat (String.length pre) + Z.of_nat (String.length mid))); [|lia].
  destruct (Z.leb_spec (Z.of_nat (String.length pre) + Z.of_nat (String.length mid))
              (Z.of_nat (String.length pre + (String.length mid + String.length post))));
    [|lia].
  cbn [andb]. rewrite Nat2Z.id.
  replace (Z.to_nat (_ + _ - _)) with (String.length mid) by lia.
  rewrite substring_middle. reflexivity.
Qed.

Lemma HasPrefix_append (p rest : string) : HasPrefix (p ++ rest) p = true.
Proof.
  induction p as [|c p IH]; simpl; [reflexivity|].
  rewrite Ascii.eqb_refl, IH. reflexivity.
Qed.

Lemma HasPrefix_split (s p : string) :
  HasPrefix s p = true -> exists rest, s = (p ++ rest)%string.
Proof.
  revert s; induction p as [|c p IH]; intros s H; simpl in *.
  - exists s. reflexivity.
  - destruct s as [|b s]; [discriminate|].
    apply andb_prop in H as [Hc Hp]. apply Ascii.eqb_eq in Hc. subst b.
    destruct (IH _ Hp) as [rest ->]. exists rest. reflexivity.
Qed.

Lemma extractContent_line (pos : Z) (s : string) :
  extractContent {| Slash := pos; Text := "// " ++ s |} = Some (s, true).
Proof.
  unfold extractContent. cbn [Text].
  rewrite HasPrefix_append.
  pose proof (slice_middle "// " s "") as H. rewrite append_empty in H.
  replace (len ("// " ++ s)) with (len "// " + len s)
    by (unfold len; rewrite length_append; lia).
  change 3 with (len "// ") at 1. rewrite H. reflexivity.
Qed.

(** [extractContent] undoes the markers of a comment: of a line comment
    it gives what follows ["// "]; of a block comment it gives what is
    between ["/* "] and the closing two bytes. *)
Theorem extractContent_strips_markers (pos : Z) (s : string) :
  extractContent {| Slash := pos; Text := "// " ++ s |} = Some (s, true) /\
  extractContent {| Slash := pos; Text := "/* " ++ s ++ "*/" |} = Some (s, true).
Proof.
  split; [apply extractContent_line|].
  unfold extractContent. cbn [Text].
  - change (HasPrefix ("/* " ++ s ++ "*/") "// ") with false. cbv iota.
    rewrite HasPrefix_append. cbv zeta.
    replace (len ("/* " ++ s ++ "*/") - 2) with (len "/* " + len s)
      by (unfold len; rewrite !length_append; simpl String.length; lia).
    change 3 with (len "/* ") at 1. rewrite slice_middle. reflexivity.
Qed.

(** [extractContent] panics on a comment that starts with ["/* "] and is
    shorter than five bytes, and on no other. *)
Theorem extractContent_panics_iff (c : Comment) :
  extractContent c = None <->
  HasPrefix (Text c) "/* " = true /\ len (Text c) < 5.
Proof.
  unfold extractContent. cbv zeta.
  destruct (HasPrefix (Text c) "// ") eqn:E1.
  - apply HasPrefix_split in E1 as [rest E]. rewrite E.
    pose proof (slice_middle "// " rest "") as H. rewrite append_empty in H.
    replace (len ("// " ++ rest)) with (len "// " + len rest)
      by (unfold len; rewrite length_append; lia).
    change 3 with (len "// ") at 1. rewrite H. cbn [option_map].
    split; [discriminate|]. intros [Hp _]. discriminate.
  - destruct (HasPrefix (Text c) "/* ") eqn:E2.
    + apply HasPrefix_split in E2 as [rest E]. rewrite E.
      unfold slice.
      assert (HL : len ("/* " ++ rest) = Z.of_nat (String.length rest) + 3).
      { unfold len. rewrite length_append. simpl String.length. lia. }
      fold (len ("/* " ++ rest)). rewrite HL.
      set (L := Z.of_nat (String.length rest) + 3). assert (3 <= L) by (unfold L; lia).
      rewrite (proj2 (Z.leb_le (L - 2) L)) by lia. rewrite andb_true_r.
      change (0 <=? 3) with true. rewrite andb_true_l.
      destruct (Z.leb_spec 3 (L - 2)); cbn [option_map].
      * split; [discriminate|]. intros [_ H1]. lia.
      * split; [intros _; split; [reflexivity | lia] | reflexivity].
    + split; [discriminate|]. intros [Hp _]. discriminate.
Qed.

(** [Get] gives the first annotation with the key, if there is one, and
    the empty annotation with [false] otherwise. *)
Theorem Get_first_match {NN : Type} (a : Annotations NN) (key : string) :
  (forall an, Get a key = (an, true) ->
     Key an = key /\
     exists before after,
       Ans a = before ++ an :: after /\ Forall (fun b => Key b <> key) before) /\
  (snd (Get a key) = false <-> Forall (fun b => Key b <> key) (Ans a)) /\
  (snd (Get a key) = false -> fst (Get a key) = zero).
Proof.
  unfold Get. generalize (Ans a) as l. clear a.
  induction l as [|b l (IH1 & IH2 & IH3)]; cbn [firstWith].
  - split; [intros an H; discriminate|]. split; [|reflexivity].
    split; [constructor | reflexivity].
  - destruct (String.eqb_spec (Key b) key) as [E|E].
    + split; [|split].
      * intros an H. inversion H; subst an. split; [exact E|].
        exists [], l. split; [reflexivity | constructor].
      * cbn [snd]. split; [discriminate|]. intros H. inversion H; subst. contradiction.
      * cbn [snd]. discriminate.
    + split; [|split].
      * intros an H. destruct (IH1 an H) as (Hk & before & after & -> & Hb).
        split; [exact Hk|]. exists (b :: before), after.
        split; [reflexivity | constructor; assumption].
      * rewrite IH2. split; [intros H; constructor; assumption|].
        intros H; inversion H; assumption.
      * exact IH3.
Qed.

Lemma cutSpace_spec (s : string) :
  match cutSpace s with
  | Some (a, b) => s = (a ++ " " ++ b)%string /\ spaceFree a = true
  | None => spaceFree s = true
  end.
Proof.
  induction s as [|c s IH]; cbn [cutSpace spaceFree]; [reflexivity|].
  destruct (Ascii.eqb_spec c " "%char) as [->|Hc].
  - split; reflexivity.
  - destruct (cutSpace s) as [[a b]|].
    + destruct IH as [-> Ha]. cbn [spaceFree].
      rewrite (proj2 (Ascii.eqb_neq _ _) Hc), Ha. split; reflexivity.
    + cbn [negb andb]. exact IH.
Qed.

Lemma cutSpace_append (a b : string) :
  spaceFree a = true -> cutSpace (a ++ " " ++ b) = Some (a, b).
Proof.
  induction a as [|c a IH]; cbn [spaceFree]; intros H; [reflexivity|].
  apply andb_prop in H as [Hc Ha]. simpl. 
  destruct (Ascii.eqb c " "%char); [discriminate|].
  simpl in IH. rewrite (IH Ha). reflexivity.
Qed.

Lemma slice_tail (c : ascii) (s : string) :
  slice (String c s) 1 (len (String c s)) = Some s.
Proof.
  pose proof (slice_middle (String c "") s "") as H.
  rewrite append_empty in H. cbn [append] in H.
  replace (len (String c s)) with (len (String c "") + len s)
    by (unfold len; simpl String.length; lia).
  exact H.
Qed.

Lemma annotationOf_spaceFree (text : string) (an : Annotation) :
  annotationOf text = Some an -> spaceFree (Key an) = true.
Proof.
  unfold annotationOf, SplitN_space_2.
  pose proof (cutSpace_spec text) as Hc.
  destruct (cutSpace text) as [[a b]|]; cbn [nth_error].
  - destruct Hc as [_ Ha]. destruct a as [|c a]; [discriminate|].
    rewrite slice_tail. intros H; inversion H; subst. cbn [Key].
    cbn [spaceFree] in Ha. apply andb_prop in Ha as [_ Ha]. exact Ha.
  - destruct text as [|c s]; [discriminate|].
    rewrite slice_tail. intros H; inversion H; subst. cbn [Key].
    cbn [spaceFree] in Hc. apply andb_prop in Hc as [_ Hc]. exact Hc.
Qed.

Lemma collect_wellformed (cs : list Comment) (acc ans : list Annotation) :
  collect cs acc = Some ans ->
  exists more,
    ans = acc ++ more /\
    Forall (fun an => spaceFree (Key an) = true) more /\
    (List.length more <= List.length cs)%nat.
Proof.
  revert acc; induction cs as [|c cs IH]; cbn [collect]; intros acc H.
  - inversion H; subst. exists []. rewrite app_nil_r. repeat constructor.
  - destruct (extractContent c) as [[text ok]|]; [|discriminate].
    assert (Skip : collect cs acc = Some ans ->
              exists more, ans = acc ++ more /\
                Forall (fun an => spaceFree (Key an) = true) more /\
                (List.length more <= List.length (c :: cs))%nat).
    { intros H'. destruct (IH _ H') as (more & E & F & L).
      exists more. cbn [List.length]. repeat split; auto. }
    destruct ok; cbn [negb] in H; [|auto].
    destruct (HasPrefix text "@"); [|auto].
    destruct (annotationOf text) as [an|] eqn:Ea; [|discriminate].
    destruct (IH _ H) as (more & E & F & L).
    exists (an :: more). rewrite E, <- app_assoc. cbn [List.app List.length].
    repeat split; [|lia]. constructor; [|exact F].
    eapply annotationOf_spaceFree; eauto.
Qed.

(** What [newAnnotations] returns belongs to the node given, has at most
    one annotation per comment, and no key in it contains a space; a
    missing or empty comment group gives no annotation at all. *)
Theorem newAnnotations_wellformed
    {NN : Type} (n : NN) (cg : option CommentGroup) (a : Annotations NN) :
  newAnnotations n cg = Some a ->
  Node a = n /\
  Forall (fun an => spaceFree (Key an) = true) (Ans a) /\
  (List.length (Ans a) <=
   match cg with Some g => List.length (List g) | None => 0 end)%nat /\
  (forall key, match cg with Some g => List g = [] | None => True end ->
               Get a key = (zero, false)).
Proof.
  unfold newAnnotations. destruct cg as [g|].
  - destruct (List g) as [|c cs] eqn:El; cbn [List.length Nat.eqb].
    + intros H; inversion H; subst. cbn [Node Ans List.length].
      repeat split; auto.
    + destruct (collect (c :: cs) []) as [ans|] eqn:Ec; [|discriminate].
      cbn [option_map]. intros H; inversion H; subst. cbn [Node Ans].
      destruct (collect_wellformed _ _ _ Ec) as (more & E & F & L).
      cbn [List.app] in E. subst ans. repeat split; auto.
      intros key Hn. discriminate.
  - intros H; inversion H; subst. cbn [Node Ans List.length].
    repeat split; auto.
Qed.

Lemma collect_lineComments (kvs : list (string * string)) (acc : list Annotation) :
  Forall (fun kv => spaceFree (fst kv) = true) kvs ->
  collect (map lineComment kvs) acc = Some (acc ++ map asAnnotation kvs).
Proof.
  revert acc; induction kvs as [|[k v] kvs IH]; intros acc H; cbn [map collect].
  - rewrite app_nil_r. reflexivity.
  - inversion H as [|? ? Hk Hrest]; subst. cbn [fst] in Hk.
    unfold lineComment at 1. cbn [fst snd].
    change ("// @" ++ k ++ " " ++ v)%string with ("// " ++ ("@" ++ k ++ " " ++ v))%string.
    rewrite extractContent_line.
    cbn [negb]. rewrite (HasPrefix_append "@" (k ++ " " ++ v)).
    unfold annotationOf, SplitN_space_2.
    change ("@" ++ k ++ " " ++ v)%string with (String "@" k ++ " " ++ v)%string.
    rewrite cutSpace_append by (cbn [spaceFree]; rewrite Hk; reflexivity).
    cbn [nth_error]. rewrite slice_tail. cbn [List.length Nat.eqb nth].
    rewrite (IH _ Hrest), <- app_assoc. reflexivity.
Qed.

(** Writing annotations as line comments and reading them back gives the
    same annotations in the same order, as long as no key has a space;
    values may contain anything. *)
Theorem newAnnotations_roundtrip
    {NN : Type} (n : NN) (kvs : list (string * string)) :
  Forall (fun kv => spaceFree (fst kv) = true) kvs ->
  newAnnotations n (Some {| List := map lineComment kvs |}) =
  Some {| Node := n; Ans := map asAnnotation kvs |}.
Proof.
  intros H. unfold newAnnotations. cbn [List].
  destruct kvs as [|kv kvs]; [reflexivity|].
  cbn [map List.length Nat.eqb].
  pose proof (collect_lineComments (kv :: kvs) [] H) as Hc. cbn [map List.app] in Hc.
  rewrite Hc. reflexivity.
Qed.

End AnnotationFacts.

(** * Instances of the further properties *)

Lemma Handle_outcome_witness :
  @Handle tableHTTP api "/" "hello"%string =
    Returned tServer
      (@set_mux tableHTTP (@set_embedded tableHTTP [("/", "hello")]%string (mux api)) api) /\
  @Handle tableHTTP api "" "hello"%string = Panicked tServer api.
Proof.
  split.
  - exact (@Handle_outcome tableHTTP api "/" "hello"%string (Z.le_refl 0)).
  - exact (@Handle_outcome tableHTTP api "" "hello"%string (Z.le_refl 0)).
Defined.

Lemma inflight_outlives_reject_witness :
  exists w2 : tWorld,
    step (@LFinish tableHTTP 0) (world_of flipped) = Some w2 /\
    reject (mux (server w2)) = true /\
    answered w2 =
      [("/"%string, [WriteHeader 503; Write "服务已关闭"]);
       ("/"%string, [Write "hello"])].
Proof.
  eexists. split; [reflexivity|].
  exact (@inflight_outlives_reject tableHTTP (world_of busy) (world_of flipped) _
           lateRequest 0%nat [("/", "hello")]%string [] "/"%string
           eq_refl eq_refl eq_refl eq_refl).
Defined.

Lemma execCallBack_waits_for_slowest_witness :
  0 + 5000000000 <= finish (execCallBack twoCallbacks (callbackCtx 0) 0) /\
  finish (execCallBack (NewApp [api] []) (callbackCtx 0) 0) = 0.
Proof.
  split.
  - destruct (@execCallBack_waits_for_slowest tableHTTP twoCallbacks (callbackCtx 0) 0)
      as (_ & _ & _ & H & _).
    apply (H (fun _ _ => 5000000000)). right. left. reflexivity.
  - destruct (@execCallBack_waits_for_slowest tableHTTP (NewApp [api] []) (callbackCtx 0) 0)
      as (_ & _ & _ & _ & H).
    apply H. reflexivity.
Defined.

Lemma watcher_exit_witness :
  fires_at (watcher calm (seconds 6) [seconds 1]) = seconds 6 /\
  fires_at (watcher calm (seconds 6) [seconds 9]) = seconds 9 /\
  fires_at (watcher calm (seconds 6) [seconds 40]) = seconds 36 /\
  fires_at (watcher calm (seconds 6) []) = seconds 36.
Proof.
  split; [|split; [|split]].
  - destruct (watcher_exit calm (seconds 6) [seconds 1]) as (_ & _ & _ & H & _).
    destruct (H (seconds 1) [] eq_refl) as [E _]; [discriminate | exact E].
  - destruct (watcher_exit calm (seconds 6) [seconds 9]) as (_ & _ & _ & _ & H & _).
    destruct (H (seconds 9) [] eq_refl) as [E _]; [split; [discriminate | reflexivity] | exact E].
  - destruct (watcher_exit calm (seconds 6) [seconds 40]) as (_ & _ & _ & _ & _ & H).
    destruct (H (seconds 40) [] eq_refl) as [E _]; [reflexivity | exact E].
  - destruct (watcher_exit calm (seconds 6) []) as (_ & _ & H & _).
    destruct (H eq_refl) as [E _]. exact E.
Defined.

Lemma StartAndServe_without_signal_witness :
  value (StartAndServe plainApp silent 0) = None /\
  events (StartAndServe plainApp silent 0) = [(0, EvGoStart 0)].
Proof.
  exact (@StartAndServe_without_signal tableHTTP plainApp silent 0 eq_refl).
Defined.

Lemma extractContent_panics_iff_witness :
  annotation.extractContent {| annotation.Slash := 0; annotation.Text := "/* x" |} = None.
Proof.
  apply (proj2 (extractContent_panics_iff
                  {| annotation.Slash := 0; annotation.Text := "/* x" |})).
  split; reflexivity.
Defined.

Lemma Get_first_match_witness :
  annotation.Key
    (fst (annotation.Get
            {| annotation.Node := tt;
               annotation.Ans := map annotation.asAnnotation sampleAnnotations |}
            "route")) = "route"%string.
Proof.
  destruct (Get_first_match
              {| annotation.Node := tt;
                 annotation.Ans := map annotation.asAnnotation sampleAnnotations |}
              "route") as (H & _).
  destruct (H {| annotation.Key := "route"; annotation.Value := "/api/v1 users" |} eq_refl)
    as [E _].
  exact E.
Defined.

Lemma newAnnotations_wellformed_witness :
  Forall (fun an => annotation.spaceFree (annotation.Key an) = true)
         (map annotation.asAnnotation sampleAnnotations).
Proof.
  destruct (newAnnotations_wellformed tt
              (Some {| annotation.List := map annotation.lineComment sampleAnnotations |})
              {| annotation.Node := tt;
                 annotation.Ans := map annotation.asAnnotation sampleAnnotations |}
              eq_refl) as (_ & H & _).
  exact H.
Defined.

Lemma newAnnotations_roundtrip_witness :
  annotation.newAnnotations tt
    (Some {| annotation.List := map annotation.lineComment sampleAnnotations |}) =
  Some {| annotation.Node := tt;
          annotation.Ans := map annotation.asAnnotation sampleAnnotations |}.
Proof.
  apply (newAnnotations_roundtrip tt sampleAnnotations).
  repeat constructor.
Defined.
